(** * rb-xmpp-notification: a shallow embedding of [rbxmppnotification/xmpp.py]

    The module resolves the audience of a review-request event and sends one
    XMPP message per interested user.  The embedding follows the Python text
    function by function.  The Django ORM, the extension settings and
    [pyxmpp2] are external collaborators: what the module reads from them is
    data of the model ([ReviewRequest], [Extension]) or a member of the class
    [Environment] (address parsing, the byte codec, what the network does). *)

From Stdlib Require Import ZArith String Ascii.
From stdpp Require Import base option list gmap strings pretty.

Open Scope Z_scope.

(** ** Python values and exceptions *)

(** The values a settings entry or a format argument can hold.  A Python 2
    [unicode] object and a byte [str] are kept apart: [.decode] treats them
    differently.  A character of the model is a code point below 256. *)
Inductive PyVal : Type :=
  | PyUnicode (s : string)
  | PyStr (s : string)
  | PyInt (z : Z)
  | PyBool (b : bool)
  | PyNone.

(** Subclasses of [Exception] that the module can meet.  [TransportError]
    stands for whatever [pyxmpp2] or the socket layer raises. *)
Inductive exn : Type :=
  | KeyError (key : string)
  | TypeError (msg : string)
  | ValueError (msg : string)
  | AttributeError (attr : string)
  | UnicodeEncodeError
  | UnicodeDecodeError
  | JIDError (msg : string)
  | SASLAuthenticationFailed
  | TransportError (msg : string).

Definition quote_char : string := String "034"%char EmptyString.
Definition newline : string := String "010"%char EmptyString.

Definition is_ascii (s : string) : bool :=
  forallb (fun c => Nat.ltb (nat_of_ascii c) 128) (list_ascii_of_string s).

(** What the [%s] conversion of a unicode template makes of a value: a byte
    string is decoded with the ASCII codec, the other values go through
    [unicode()]. *)
Definition py_unicode (v : PyVal) : exn + string :=
  match v with
  | PyUnicode s => inr s
  | PyStr s => if is_ascii s then inr s else inl UnicodeDecodeError
  | PyInt z => inr (pretty z)
  | PyBool true => inr "True"
  | PyBool false => inr "False"
  | PyNone => inr "None"
  end.

(** The number a [%d] conversion accepts. *)
Definition py_number (v : PyVal) : option Z :=
  match v with
  | PyInt z => Some z
  | PyBool b => Some (if b then 1 else 0)
  | _ => None
  end.

Definition not_enough_arguments : string :=
  "not enough arguments for format string".
Definition not_all_converted : string :=
  "not all arguments converted during string formatting".
Definition number_required : string :=
  "%d format: a number is required".

(** [fmt % args] for a tuple [args].  The conversions interpreted are the
    ones the templates of the module contain: [%s], [%d] and the escape [%%],
    which yields one percent sign and takes no argument.  Errors come left to
    right, and arguments left over at the end of the template are an error. *)
Fixpoint py_format (fmt : string) (args : list PyVal) : exn + string :=
  match fmt with
  | EmptyString =>
      match args with
      | [] => inr EmptyString
      | _ :: _ => inl (TypeError not_all_converted)
      end
  | String "%" EmptyString => inl (ValueError "incomplete format")
  | String "%" (String c rest) =>
      if Ascii.eqb c "%" then
        match py_format rest args with
        | inr t => inr (String "%" t)
        | inl e => inl e
        end
      else if Ascii.eqb c "s" then
        match args with
        | [] => inl (TypeError not_enough_arguments)
        | a :: args' =>
            match py_unicode a with
            | inl e => inl e
            | inr u =>
                match py_format rest args' with
                | inr t => inr (u +:+ t)
                | inl e => inl e
                end
            end
        end
      else if Ascii.eqb c "d" then
        match args with
        | [] => inl (TypeError not_enough_arguments)
        | a :: args' =>
            match py_number a with
            | None => inl (TypeError number_required)
            | Some z =>
                match py_format rest args' with
                | inr t => inr (pretty z +:+ t)
                | inl e => inl e
                end
            end
        end
      else inl (ValueError "unsupported format character")
  | String c rest =>
      match py_format rest args with
      | inr t => inr (String c t)
      | inl e => inl e
      end
  end.

(** ** The review data the module reads *)

(** A [django.contrib.auth] user.  Model instances compare and hash by primary
    key; [unicode(user)] is the user name. *)
Record User : Type := {
  pk : Z;
  username : string;
  first_name : string;
  last_name : string;
  is_active : bool
}.

(** Attribute names that the functions also use for local variables live in
    a module of their class: [Group.users], [Profile.user]. *)
Module Group.
Record t : Type := { users : list User }.
End Group.

Module Profile.
Record t : Type := { user : User }.
End Profile.

Record ReviewRequest : Type := {
  public : bool;
  status : string;
  submitter : User;
  get_participants : list User;
  target_people : list User;
  target_groups : list Group.t;
  starred_by : list Profile.t;
  summary : string;
  get_display_id : Z;
  get_absolute_url : string
}.

Module Review.
Record t : Type := { review_request : ReviewRequest }.
End Review.

Module Reply.
Record t : Type := { base_reply_to : Review.t }.
End Reply.

Record Site : Type := { domain : string; site_domain_method : string }.

(** ** Python sets of users

    A [set] of model instances is keyed by primary key: [add] keeps the
    element already stored under an equal key, [discard] removes the element
    of that key if there is one, and iteration runs over the stored
    elements in an order the program does not choose. *)
Abbreviation UserSet := (gmap Z User).

Definition add (u : User) (s : UserSet) : UserSet :=
  match s !! pk u with
  | Some _ => s
  | None => <[pk u := u]> s
  end.

Definition discard (u : User) (s : UserSet) : UserSet := delete (pk u) s.

Definition set_iter (s : UserSet) : list User := (map_to_list s).*2.

(** [users = set(); for u in l: users.add(u)] continued from [s]. *)
Definition add_each (l : list User) (s : UserSet) : UserSet :=
  foldl (fun users u => add u users) s l.

(** The body of [get_users_review_request] run on a set [users0] instead of
    the fresh [set()]. *)
Definition resolve_into (users0 : UserSet) (review_request : ReviewRequest)
  : UserSet :=
  let users := users0 in
  let users := add_each (get_participants review_request) users in
  let users :=
    if is_active (submitter review_request)
    then add (submitter review_request) users else users in
  let users :=
    add_each (filter (fun u => is_active u) (target_people review_request))
             users in
  let users :=
    foldl (fun users group =>
             add_each (filter (fun u => is_active u) (Group.users group)) users)
          users (target_groups review_request) in
  let users :=
    foldl (fun users profile =>
             if is_active (Profile.user profile)
             then add (Profile.user profile) users
             else users)
          users (starred_by review_request) in
  users.

Definition get_users_review_request (review_request : ReviewRequest)
  : UserSet :=
  resolve_into ∅ review_request.

(** The audience as section 4.1 of the specification words it: a union of
    five sources, as a set of user identities. *)
Definition keys (l : list User) : gset Z := list_to_set (pk <$> l).

Definition audience_spec (review_request : ReviewRequest) : gset Z :=
  keys (get_participants review_request)
  ∪ (if is_active (submitter review_request)
     then {[ pk (submitter review_request) ]} else ∅)
  ∪ keys (filter (fun u => is_active u) (target_people review_request))
  ∪ ⋃ ((fun group => keys (filter (fun u => is_active u) (Group.users group)))
        <$> target_groups review_request)
  ∪ keys (filter (fun u => is_active u) (Profile.user <$> starred_by review_request)).

(** [u] is contributed by one of the five sources, the last four filtered
    on the active flag. *)
Definition in_source (review_request : ReviewRequest) (u : User) : Prop :=
  u ∈ get_participants review_request
  ∨ (u = submitter review_request ∧ is_active u)
  ∨ (u ∈ target_people review_request ∧ is_active u)
  ∨ (∃ group, group ∈ target_groups review_request
              ∧ u ∈ Group.users group ∧ is_active u)
  ∨ (∃ profile, profile ∈ starred_by review_request
                ∧ u = Profile.user profile ∧ is_active u).

(** One snapshot of the database: equal keys, equal rows. *)
Definition consistent (review_request : ReviewRequest) : Prop :=
  ∀ u v, in_source review_request u → in_source review_request v →
         pk u = pk v → u = v.

(** The same request with its collections enumerated in another order. *)
Definition group_permuted (g g' : Group.t) : Prop :=
  Group.users g ≡ₚ Group.users g'.

Definition groups_permuted (gs gs' : list Group.t) : Prop :=
  ∃ gs1, gs ≡ₚ gs1 ∧ Forall2 group_permuted gs1 gs'.

Record request_permuted (r r' : ReviewRequest) : Prop := {
  permuted_submitter : submitter r = submitter r';
  permuted_participants : get_participants r ≡ₚ get_participants r';
  permuted_people : target_people r ≡ₚ target_people r';
  permuted_groups : groups_permuted (target_groups r) (target_groups r');
  permuted_starred : starred_by r ≡ₚ starred_by r'
}.

(** ** The XMPP side: addresses, sessions and what is observed *)

Record JID : Type := {
  jid_local : option string;
  jid_domain : string;
  jid_resource : option string
}.

Record Message : Type := { to_jid : JID; body : string }.

Inductive StreamAction : Type :=
  | Sent (m : Message)
  | DisconnectRequested.

(** The stream an event carries: whether its [send] and [disconnect] raise. *)
Record Stream : Type := {
  send_raises : option exn;
  disconnect_raises : option exn
}.

Inductive Event : Type :=
  | AuthorizedEvent (stream : Stream)
  | DisconnectedEvent
  | OtherEvent (name : string).

(** What a handler method hands back to the main loop. *)
Inductive HandlerResult : Type := QUIT | NoResult.

Module XmppHandler.
Record t : Type := { target_jid : JID; message : string }.
End XmppHandler.

Record XMPPSettings : Type := {
  password : string;
  starttls : PyVal;
  tls_verify_peer : bool;
  server : PyVal;
  port : PyVal
}.

(** How the main loop ends when no handler has asked it to quit. *)
Inductive Ending : Type :=
  | LoopRaises (e : exn)
  | LoopBlocks.

(** What the peer and the library do in one session: [connect] raises or
    not, then [run] delivers [events] in order, then ends as [ending] says.
    [queued_behind] is the number of events that are on the queue already,
    behind the one being handled, when a handler returns [QUIT]. *)
Record Scenario : Type := {
  connect_raises : option exn;
  events : list Event;
  ending : Ending;
  queued_behind : nat
}.

Record Client : Type := {
  client_jid : JID;
  client_handlers : list XmppHandler.t;
  client_settings : XMPPSettings;
  client_scenario : Scenario
}.

Inductive LogRecord : Type :=
  | LogInfo (ev : Event)
  | LogError (subject : string) (e : exn).

(** What one run leaves behind.  [calls] lists the invocations of
    [send_xmpp_message] (receiver and text) and is read by no function;
    [clients] the sessions constructed; [wire] what went out on the streams;
    [log] the records handed to [logging]. *)
Record World : Type := {
  calls : list (User * string);
  clients : list Client;
  wire : list StreamAction;
  log : list LogRecord
}.

Definition world0 : World :=
  {| calls := []; clients := []; wire := []; log := [] |}.

(** The collaborators the module calls into. *)
Class Environment : Type := {
  current_site : Site;
  (** [bytes.decode("utf-8")] *)
  utf8_decode : string -> option string;
  (** [JID(text)] and [JID(local, domain)] *)
  JID_new : string -> option string -> exn + JID;
  (** what happens in the [n]-th session of a run *)
  network : nat -> JID -> XMPPSettings -> Scenario
}.

(** ** Statements with effects: state, exceptions, a call that never returns *)

Inductive outcome (A : Type) : Type :=
  | Return (w : World) (a : A)
  | Raise (w : World) (e : exn)
  | Block (w : World).
Arguments Return {A} w a.
Arguments Raise {A} w e.
Arguments Block {A} w.

Definition M (A : Type) : Type := World -> outcome A.

Definition ret {A} (a : A) : M A := fun w => Return w a.
Definition raise {A} (e : exn) : M A := fun w => Raise w e.
Definition block {A} : M A := fun w => Block w.

Definition bind {A B} (m : M A) (k : A -> M B) : M B :=
  fun w =>
    match m w with
    | Return w' a => k a w'
    | Raise w' e => Raise w' e
    | Block w' => Block w'
    end.

Notation "'let!' x ':=' m 'in' k" := (bind m (fun x => k))
  (at level 10, x name, m at level 100, k at level 200,
   format "'[v' 'let!'  x  ':='  m  'in' '/' k ']'").
Notation "m '>>>' k" := (bind m (fun _ => k))
  (at level 100, k at level 200, right associativity).

(** [try: m  except Exception, e: h e] *)
Definition try_except {A} (m : M A) (h : exn -> M A) : M A :=
  fun w =>
    match m w with
    | Raise w' e => h e w'
    | o => o
    end.

Definition lift {A} (r : exn + A) : M A :=
  match r with
  | inr a => ret a
  | inl e => raise e
  end.

(** [for x in l: body x] *)
Fixpoint for_each {A} (l : list A) (body : A -> M unit) : M unit :=
  match l with
  | [] => ret tt
  | x :: l' => body x >>> for_each l' body
  end.

Definition final {A} (o : outcome A) : World :=
  match o with
  | Return w _ => w
  | Raise w _ => w
  | Block w => w
  end.

Definition record_call (receiver : User) (message : string) : M unit :=
  fun w =>
    Return {| calls := calls w ++ [(receiver, message)];
              clients := clients w; wire := wire w; log := log w |} tt.

Definition record_client (c : Client) : M unit :=
  fun w =>
    Return {| calls := calls w; clients := clients w ++ [c];
              wire := wire w; log := log w |} tt.

Definition emit (a : StreamAction) : M unit :=
  fun w =>
    Return {| calls := calls w; clients := clients w;
              wire := wire w ++ [a]; log := log w |} tt.

Definition logging (r : LogRecord) : M unit :=
  fun w =>
    Return {| calls := calls w; clients := clients w;
              wire := wire w; log := log w ++ [r] |} tt.

(** ** [class XmppHandler] *)

Definition stream_send (stream : Stream) (m : Message) : M unit :=
  match send_raises stream with
  | Some e => raise e
  | None => emit (Sent m)
  end.

Definition stream_disconnect (stream : Stream) : M unit :=
  match disconnect_raises stream with
  | Some e => raise e
  | None => emit DisconnectRequested
  end.

Definition handle_authorized (self : XmppHandler.t) (stream : Stream)
  : M HandlerResult :=
  let message :=
    {| to_jid := XmppHandler.target_jid self;
       body := XmppHandler.message self |} in
  stream_send stream message >>>
  stream_disconnect stream >>>
  ret NoResult.

Definition handle_disconnected (self : XmppHandler.t) : M HandlerResult :=
  ret QUIT.

Definition handle_all (self : XmppHandler.t) (event : Event)
  : M HandlerResult :=
  logging (LogInfo event) >>> ret NoResult.

Definition quit_or (r1 r2 : HandlerResult) : HandlerResult :=
  match r1 with
  | QUIT => QUIT
  | NoResult => r2
  end.

(** The event dispatcher of [pyxmpp2] on one handler object: the method
    registered for every event first, then the one registered for the class
    of the event.  A method that returns an event has it put on the queue
    and the round goes on; the result says whether [QUIT] was put there. *)
Definition handle_event (handler : XmppHandler.t) (event : Event)
  : M HandlerResult :=
  let! r1 := handle_all handler event in
  let! r2 :=
    match event with
    | AuthorizedEvent stream => handle_authorized handler stream
    | DisconnectedEvent => handle_disconnected handler
    | OtherEvent _ => ret NoResult
    end in
  ret (quit_or r1 r2).

Fixpoint dispatch (handlers : list XmppHandler.t) (event : Event)
  : M HandlerResult :=
  match handlers with
  | [] => ret NoResult
  | h :: hs =>
      let! r := handle_event h event in
      let! rs := dispatch hs event in
      ret (quit_or r rs)
  end.

(** The events that are on the queue ahead of [QUIT] are handled before it
    is taken off; what their handlers return changes nothing any more. *)
Fixpoint drain (handlers : list XmppHandler.t) (evs : list Event) : M unit :=
  match evs with
  | [] => ret tt
  | ev :: evs' => dispatch handlers ev >>> drain handlers evs'
  end.

(** The main loop.  A [QUIT] that a handler returns goes on the queue behind
    the [queued] events that are there already: these are still handled,
    then [QUIT] is taken off and the loop ends.  The events the library
    would have queued after it are never handled. *)
Fixpoint loop (handlers : list XmppHandler.t) (evs : list Event)
    (fin : Ending) (queued : nat) : M unit :=
  match evs with
  | [] =>
      match fin with
      | LoopRaises e => raise e
      | LoopBlocks => block
      end
  | ev :: evs' =>
      let! r := dispatch handlers ev in
      match r with
      | QUIT => drain handlers (take queued evs')
      | NoResult => loop handlers evs' fin queued
      end
  end.

(** [Client(jid, handlers, settings)], [client.connect()], [client.run()] *)
Definition Client_new `{Environment} (jid : JID)
    (handlers : list XmppHandler.t) (settings : XMPPSettings) : M Client :=
  fun w =>
    let c := {| client_jid := jid;
                client_handlers := handlers;
                client_settings := settings;
                client_scenario := network (length (clients w)) jid settings |}
    in (record_client c >>> ret c) w.

Definition connect (client : Client) : M unit :=
  match connect_raises (client_scenario client) with
  | Some e => raise e
  | None => ret tt
  end.

Definition run (client : Client) : M unit :=
  loop (client_handlers client)
       (events (client_scenario client))
       (ending (client_scenario client))
       (queued_behind (client_scenario client)).

(** ** [class XmppClient] *)

Module Extension.
Record t : Type := { settings : gmap string PyVal }.
End Extension.

Record XmppClient : Type := { extension : Extension.t }.

(** [d[key]] *)
Definition getitem (d : gmap string PyVal) (key : string) : M PyVal :=
  match d !! key with
  | Some v => ret v
  | None => raise (KeyError key)
  end.

(** [v.decode("utf-8")] under Python 2: a [unicode] object is first encoded
    with the ASCII codec, a byte string goes through the UTF-8 codec, and
    the other values have no such method. *)
Definition decode_utf8 `{Environment} (v : PyVal) : exn + string :=
  match v with
  | PyUnicode s => if is_ascii s then inr s else inl UnicodeEncodeError
  | PyStr s =>
      match utf8_decode s with
      | Some u => inr u
      | None => inl UnicodeDecodeError
      end
  | _ => inl (AttributeError "decode")
  end.

(** The body of the [try] block of [send_xmpp_message]. *)
Definition deliver `{Environment} (receiver : User) (message : string)
    (xmpp_host xmpp_port xmpp_use_tls : PyVal)
    (xmpp_sender_jid xmpp_sender_password : string) : M unit :=
  let! xmpp_sender_jid := lift (JID_new xmpp_sender_jid None) in
  let! xmpp_receiver_jid :=
    lift (JID_new (username receiver)
                  (Some (jid_domain xmpp_sender_jid))) in
  let handler :=
    {| XmppHandler.target_jid := xmpp_receiver_jid;
       XmppHandler.message := message |} in
  let settings :=
    {| password := xmpp_sender_password;
       starttls := xmpp_use_tls;
       tls_verify_peer := false;
       server := xmpp_host;
       port := xmpp_port |} in
  let! client := Client_new xmpp_sender_jid [handler] settings in
  connect client >>>
  run client.

(** The module parses under Python 2 only ([except Exception, e]), so the
    branch on [sys.version_info.major < 3] is the one taken. *)
Definition send_xmpp_message `{Environment} (self : XmppClient)
    (receiver : User) (message : string) : M unit :=
  record_call receiver message >>>
  let! xmpp_host :=
    getitem (Extension.settings (extension self)) "xmpp_host" in
  let! xmpp_port :=
    getitem (Extension.settings (extension self)) "xmpp_port" in
  let! xmpp_sender_jid :=
    getitem (Extension.settings (extension self)) "xmpp_sender_jid" in
  let! xmpp_sender_password :=
    getitem (Extension.settings (extension self)) "xmpp_sender_password" in
  let! xmpp_use_tls :=
    getitem (Extension.settings (extension self)) "xmpp_use_tls" in
  let! xmpp_sender_jid := lift (decode_utf8 xmpp_sender_jid) in
  let! xmpp_sender_password := lift (decode_utf8 xmpp_sender_password) in
  let! message := lift (decode_utf8 (PyUnicode message)) in
  try_except
    (deliver receiver message xmpp_host xmpp_port xmpp_use_tls
             xmpp_sender_jid xmpp_sender_password)
    (fun e => logging (LogError "boo" e)).

(** ** The message templates and the five entry points *)

Definition get_base_url `{Environment} : exn + string :=
  let domain_method := site_domain_method current_site in
  py_format "%s://%s" [PyUnicode domain_method; PyUnicode (domain current_site)].

(** The template text of the source; its escaped quotes and its escaped
    newline are [quote_char] and [newline] here. *)
Definition published_template : string :=
  Eval vm_compute in
  ("%s %s published review request #%d: " +:+ quote_char +:+ "%s"
   +:+ quote_char +:+ newline +:+ "%s%s").
Definition reopened_template : string :=
  Eval vm_compute in
  ("%s %s reopened review request #%d: " +:+ quote_char +:+ "%s"
   +:+ quote_char +:+ newline +:+ "%s%s").
Definition closed_template : string :=
  Eval vm_compute in
  ("%s %s closed review request #%d: " +:+ quote_char +:+ "%s"
   +:+ quote_char +:+ newline +:+ "%s%s").
Definition reviewed_template : string :=
  Eval vm_compute in
  ("%s %s reviewed request #%d: " +:+ quote_char +:+ "%s"
   +:+ quote_char +:+ newline +:+ "%s%s").
Definition replied_template : string :=
  Eval vm_compute in
  ("%s %s replied review request #%d: " +:+ quote_char +:+ "%s"
   +:+ quote_char +:+ newline +:+ "%%s%s").

(** The argument tuple every template is applied to. *)
Definition message_args (user : User) (review_request : ReviewRequest)
    (base_url : string) : list PyVal :=
  [ PyUnicode (first_name user); PyUnicode (last_name user);
    PyInt (get_display_id review_request);
    PyUnicode (summary review_request);
    PyUnicode base_url; PyUnicode (get_absolute_url review_request) ].

Definition send_review_request_published `{Environment} (self : XmppClient)
    (user : User) (review_request : ReviewRequest) (changedesc : PyVal)
  : M unit :=
  if negb (public review_request) then ret tt else
  let! base_url := lift get_base_url in
  let! message :=
    lift (py_format published_template
            (message_args user review_request base_url)) in
  let users := get_users_review_request review_request in
  let users := discard user users in
  for_each (set_iter users) (fun u => send_xmpp_message self u message).

Definition send_review_request_reopened `{Environment} (self : XmppClient)
    (user : User) (review_request : ReviewRequest) : M unit :=
  if negb (public review_request) then ret tt else
  let! base_url := lift get_base_url in
  let! message :=
    lift (py_format reopened_template
            (message_args user review_request base_url)) in
  let users := get_users_review_request review_request in
  let users := discard user users in
  for_each (set_iter users) (fun u => send_xmpp_message self u message).

Definition send_review_request_closed `{Environment} (self : XmppClient)
    (user : User) (review_request : ReviewRequest) : M unit :=
  if String.eqb (status review_request) "D" then ret tt else
  let! base_url := lift get_base_url in
  let! message :=
    lift (py_format closed_template
            (message_args user review_request base_url)) in
  let users := get_users_review_request review_request in
  let users := discard user users in
  for_each (set_iter users) (fun u => send_xmpp_message self u message).

Definition send_review_published `{Environment} (self : XmppClient)
    (user : User) (review : Review.t) : M unit :=
  let review_request := Review.review_request review in
  if negb (public review_request) then ret tt else
  let! base_url := lift get_base_url in
  let! message :=
    lift (py_format reviewed_template
            (message_args user review_request base_url)) in
  let users := get_users_review_request review_request in
  let users := discard user users in
  for_each (set_iter users) (fun u => send_xmpp_message self u message).

Definition send_reply_published `{Environment} (self : XmppClient)
    (user : User) (reply : Reply.t) : M unit :=
  let review := Reply.base_reply_to reply in
  let review_request := Review.review_request review in
  if negb (public review_request) then ret tt else
  let! base_url := lift get_base_url in
  let! message :=
    lift (py_format replied_template
            (message_args user review_request base_url)) in
  let users := get_users_review_request review_request in
  let users := discard user users in
  for_each (set_iter users) (fun u => send_xmpp_message self u message).

(** The five entry points under one name, each on the request it works on. *)
Inductive EntryPoint : Type :=
  | Publish | Reopen | Close | ReviewPosted | ReplyPosted.

#[global] Instance EntryPoint_eq_dec : EqDecision EntryPoint.
Proof. solve_decision. Defined.

Definition entry `{Environment} (ep : EntryPoint) (self : XmppClient)
    (user : User) (review_request : ReviewRequest) : M unit :=
  match ep with
  | Publish => send_review_request_published self user review_request PyNone
  | Reopen => send_review_request_reopened self user review_request
  | Close => send_review_request_closed self user review_request
  | ReviewPosted =>
      send_review_published self user
        {| Review.review_request := review_request |}
  | ReplyPosted =>
      send_reply_published self user
        {| Reply.base_reply_to :=
             {| Review.review_request := review_request |} |}
  end.

(** ** What the statements below speak about *)

(** The text of a notification as section 4.2 of the specification words
    it: display name, verb phrase, display id, summary; then a newline and
    the absolute URL. *)
Definition notification_text (verb : string) (user : User)
    (review_request : ReviewRequest) (base_url : string) : string :=
  first_name user +:+ " " +:+ last_name user +:+ " " +:+ verb +:+ " #"
  +:+ pretty (get_display_id review_request) +:+ ": "
  +:+ quote_char +:+ summary review_request +:+ quote_char +:+ newline
  +:+ base_url +:+ get_absolute_url review_request.

(** The verb phrase of each template. *)
Definition verb (ep : EntryPoint) : string :=
  match ep with
  | Publish => "published review request"
  | Reopen => "reopened review request"
  | Close => "closed review request"
  | ReviewPosted => "reviewed request"
  | ReplyPosted => "replied review request"
  end.

Definition base_url `{Environment} : string :=
  site_domain_method current_site +:+ "://" +:+ domain current_site.

Definition entry_text `{Environment} (ep : EntryPoint) (user : User)
    (review_request : ReviewRequest) : string :=
  notification_text (verb ep) user review_request base_url.

(** The gate of an entry point lets the request through. *)
Definition gate (ep : EntryPoint) (review_request : ReviewRequest) : bool :=
  match ep with
  | Close => negb (String.eqb (status review_request) "D")
  | _ => public review_request
  end.

(** The users an entry point dispatches to, in dispatch order. *)
Definition recipients (user : User) (review_request : ReviewRequest)
  : list User :=
  set_iter (discard user (get_users_review_request review_request)).

(** The five connection parameters are present, and the two that are decoded
    decode. *)
Record configured `{Environment} (self : XmppClient)
    (host port tls : PyVal) (jid pass : string) : Prop := {
  configured_host :
    Extension.settings (extension self) !! "xmpp_host" = Some host;
  configured_port :
    Extension.settings (extension self) !! "xmpp_port" = Some port;
  configured_jid :
    ∃ v, Extension.settings (extension self) !! "xmpp_sender_jid" = Some v
         ∧ decode_utf8 v = inr jid;
  configured_password :
    ∃ v, Extension.settings (extension self) !! "xmpp_sender_password"
         = Some v ∧ decode_utf8 v = inr pass;
  configured_tls :
    Extension.settings (extension self) !! "xmpp_use_tls" = Some tls
}.

(** The main loop of a session comes to an end: a disconnected event is
    delivered, a stream operation raises, or the loop itself raises. *)
Fixpoint events_end (evs : list Event) (fin : Ending) : bool :=
  match evs with
  | [] =>
      match fin with
      | LoopRaises _ => true
      | LoopBlocks => false
      end
  | DisconnectedEvent :: _ => true
  | AuthorizedEvent stream :: evs' =>
      match send_raises stream, disconnect_raises stream with
      | None, None => events_end evs' fin
      | _, _ => true
      end
  | OtherEvent _ :: evs' => events_end evs' fin
  end.

Definition session_ends (sc : Scenario) : bool :=
  match connect_raises sc with
  | Some _ => true
  | None => events_end (events sc) (ending sc)
  end.

Definition sessions_end `{Environment} : Prop :=
  ∀ n jid settings, session_ends (network n jid settings) = true.

Definition is_other (ev : Event) : bool :=
  match ev with
  | OtherEvent _ => true
  | _ => false
  end.

(** The part of a trace that a run from [w] to [w'] has added. *)
Definition new_calls (w w' : World) : list (User * string) :=
  drop (length (calls w)) (calls w').
Definition new_wire (w w' : World) : list StreamAction :=
  drop (length (wire w)) (wire w').

(** Every run of [m] takes a world to one related to it by [R]. *)
Definition respects (R : World -> World -> Prop) {A} (m : M A) : Prop :=
  ∀ w, R w (final (m w)).

(** From [w] to [w'] the users [us] were called with [msg], in this order,
    and whatever was sent on a stream carried [msg]. *)
Definition extends_with (us : list User) (msg : string) (w w' : World)
  : Prop :=
  calls w' = calls w ++ ((fun u => (u, msg)) <$> us)
  ∧ ∃ new, wire w' = wire w ++ new ∧ ∀ m, Sent m ∈ new → body m = msg.

(** [m] returns, possibly by raising: it never blocks. *)
Definition comes_back {A} (m : M A) : Prop :=
  ∀ w, match m w with Block _ => False | _ => True end.

(** [m] returns normally. *)
Definition returns {A} (m : M A) : Prop :=
  ∀ w, ∃ w' a, m w = Return w' a.

(** ** Example data *)

Definition alice : User :=
  {| pk := 1; username := "alice"; first_name := "Alice";
     last_name := "Liddell"; is_active := true |}.
Definition bob : User :=
  {| pk := 2; username := "bob"; first_name := "Bob";
     last_name := "Builder"; is_active := true |}.
Definition carol : User :=
  {| pk := 3; username := "carol"; first_name := "Carol";
     last_name := "Danvers"; is_active := false |}.
Definition dave : User :=
  {| pk := 4; username := "dave"; first_name := "Dave";
     last_name := "Bowman"; is_active := true |}.

(** A user whose first name starts with a letter outside ASCII (code point
    201). *)
Definition eric : User :=
  {| pk := 5; username := "eric"; first_name := String "201"%char "ric";
     last_name := "Satie"; is_active := true |}.

Definition example_request : ReviewRequest :=
  {| public := true; status := "P"; submitter := alice;
     get_participants := [];
     target_people := [bob; carol];
     target_groups := [];
     starred_by := [];
     summary := "Fix the parser";
     get_display_id := 42;
     get_absolute_url := "/r/42/" |}.

(** A request no source contributes to. *)
Definition quiet_request : ReviewRequest :=
  {| public := false; status := "D"; submitter := carol;
     get_participants := [];
     target_people := [];
     target_groups := [];
     starred_by := [];
     summary := "Abandoned";
     get_display_id := 7;
     get_absolute_url := "/r/7/" |}.

(** A request on which a user who has since been deactivated took part in
    the discussion. *)
Definition stale_request : ReviewRequest :=
  {| public := true; status := "P"; submitter := alice;
     get_participants := [carol];
     target_people := [];
     target_groups := [];
     starred_by := [];
     summary := "Rework the cache";
     get_display_id := 43;
     get_absolute_url := "/r/43/" |}.

(** A request with groups and subscribers, and the same request with every
    collection enumerated in another order. *)
Definition team_request : ReviewRequest :=
  {| public := true; status := "P"; submitter := alice;
     get_participants := [dave; bob];
     target_people := [bob; carol];
     target_groups :=
       [ {| Group.users := [bob; dave] |}; {| Group.users := [carol] |} ];
     starred_by := [ {| Profile.user := dave |}; {| Profile.user := alice |} ];
     summary := "Split the module";
     get_display_id := 44;
     get_absolute_url := "/r/44/" |}.

Definition team_request_permuted : ReviewRequest :=
  {| public := true; status := "P"; submitter := alice;
     get_participants := [bob; dave];
     target_people := [carol; bob];
     target_groups :=
       [ {| Group.users := [carol] |}; {| Group.users := [dave; bob] |} ];
     starred_by := [ {| Profile.user := alice |}; {| Profile.user := dave |} ];
     summary := "Split the module";
     get_display_id := 44;
     get_absolute_url := "/r/44/" |}.

Definition example_jid (s : string) (d : option string) : exn + JID :=
  match d with
  | None =>
      if String.eqb s "rb@example.org"
      then inr {| jid_local := Some "rb"; jid_domain := "example.org";
                  jid_resource := None |}
      else inl (JIDError "unparseable")
  | Some dom =>
      if String.eqb s EmptyString then inl (JIDError "empty local part")
      else inr {| jid_local := Some s; jid_domain := dom;
                  jid_resource := None |}
  end.

Definition good_stream : Stream :=
  {| send_raises := None; disconnect_raises := None |}.

Definition happy_scenario : Scenario :=
  {| connect_raises := None;
     events := [OtherEvent "ConnectedEvent"; AuthorizedEvent good_stream;
                DisconnectedEvent];
     ending := LoopBlocks;
     queued_behind := 0 |}.

Definition auth_failure_scenario : Scenario :=
  {| connect_raises := None;
     events := [OtherEvent "ConnectedEvent"];
     ending := LoopRaises SASLAuthenticationFailed;
     queued_behind := 0 |}.

(** The first session is refused by the server, the later ones go through. *)
Definition example_env : Environment :=
  {| current_site :=
       {| domain := "reviews.example.org"; site_domain_method := "https" |};
     utf8_decode := fun s => if is_ascii s then Some s else None;
     JID_new := example_jid;
     network := fun n _ _ =>
       match n with
       | O => auth_failure_scenario
       | _ => happy_scenario
       end |}.

(** A session in which one event is on the queue already when the
    disconnected event is handled, and one more would have followed. *)
Definition queued_scenario : Scenario :=
  {| connect_raises := None;
     events := [OtherEvent "ConnectedEvent"; AuthorizedEvent good_stream;
                DisconnectedEvent; OtherEvent "GotFeaturesEvent";
                OtherEvent "StreamRestartedEvent"];
     ending := LoopBlocks;
     queued_behind := 1 |}.

Definition queued_env : Environment :=
  {| current_site :=
       {| domain := "reviews.example.org"; site_domain_method := "https" |};
     utf8_decode := fun s => if is_ascii s then Some s else None;
     JID_new := example_jid;
     network := fun _ _ _ => queued_scenario |}.

(** Every session goes through. *)
Definition open_env : Environment :=
  {| current_site :=
       {| domain := "reviews.example.org"; site_domain_method := "https" |};
     utf8_decode := fun s => if is_ascii s then Some s else None;
     JID_new := example_jid;
     network := fun _ _ _ => happy_scenario |}.

(** The peer never answers and the library never gives up. *)
Definition silent_env : Environment :=
  {| current_site :=
       {| domain := "reviews.example.org"; site_domain_method := "https" |};
     utf8_decode := fun s => if is_ascii s then Some s else None;
     JID_new := example_jid;
     network := fun _ _ _ =>
       {| connect_raises := None; events := []; ending := LoopBlocks;
          queued_behind := 0 |} |}.

Definition example_settings : gmap string PyVal :=
  <["xmpp_host" := PyUnicode "xmpp.example.org"]>
  (<["xmpp_port" := PyInt 5222]>
  (<["xmpp_sender_jid" := PyUnicode "rb@example.org"]>
  (<["xmpp_sender_password" := PyUnicode "secret"]>
  (<["xmpp_use_tls" := PyBool true]> ∅)))).

Definition example_client : XmppClient :=
  {| extension := {| Extension.settings := example_settings |} |}.

(** The same configuration with the host entry missing. *)
Definition broken_client : XmppClient :=
  {| extension :=
       {| Extension.settings := delete "xmpp_host" example_settings |} |}.

(** ** Further vocabulary and data *)

(** The settings in the order [send_xmpp_message] reads them. *)
Definition connection_keys : list string :=
  ["xmpp_host"; "xmpp_port"; "xmpp_sender_jid"; "xmpp_sender_password";
   "xmpp_use_tls"].

(** The first of them that the mapping lacks. *)
Definition first_missing (d : gmap string PyVal) : option string :=
  List.find (fun k => match d !! k with None => true | Some _ => false end)
            connection_keys.

Definition has_authorized (evs : list Event) : bool :=
  existsb (fun ev => match ev with AuthorizedEvent _ => true | _ => false end)
          evs.

(** The exception the two stream operations of [handle_authorized] end
    with, if one of them raises. *)
Definition stream_error (stream : Stream) : option exn :=
  match send_raises stream with
  | Some e => Some e
  | None => disconnect_raises stream
  end.

(** From [w] to [w'] the streams were handed actions that satisfy [PW] and
    the sessions constructed satisfy [PC]. *)
Definition grows (PW : StreamAction -> Prop) (PC : Client -> Prop)
    (w w' : World) : Prop :=
  (∃ nw, wire w' = wire w ++ nw ∧ Forall PW nw)
  ∧ (∃ nc, clients w' = clients w ++ nc ∧ Forall PC nc).

Definition new_clients (w w' : World) : list Client :=
  drop (length (clients w)) (clients w').
Definition new_log (w w' : World) : list LogRecord :=
  drop (length (log w)) (log w').

(** [a] is the address [send_xmpp_message] makes for [u]: the user name as
    local part, on the domain of the configured sender address [jid]. *)
Definition address_of `{Environment} (jid : string) (u : User) (a : JID)
  : Prop :=
  ∃ sj, JID_new jid None = inr sj
        ∧ JID_new (username u) (Some (jid_domain sj)) = inr a.

(** A message handed to a stream carries [msg] and goes to the address of
    one of [us]. *)
Definition sent_to `{Environment} (jid msg : string) (us : list User)
    (a : StreamAction) : Prop :=
  ∀ m, a = Sent m →
       body m = msg ∧ ∃ u, u ∈ us ∧ address_of jid u (to_jid m).

(** A session is made from the configured parameters, with peer
    verification off, and has one handler, for [msg] and one of [us]. *)
Definition session_for `{Environment} (host prt tls : PyVal)
    (jid pass msg : string) (us : list User) (c : Client) : Prop :=
  client_settings c
  = {| password := pass; starttls := tls; tls_verify_peer := false;
       server := host; port := prt |}
  ∧ JID_new jid None = inr (client_jid c)
  ∧ ∃ u tj, u ∈ us ∧ address_of jid u tj
            ∧ client_handlers c
              = [{| XmppHandler.target_jid := tj;
                    XmppHandler.message := msg |}].

(** The exceptions raised by what [send_xmpp_message] does before its
    [try] block, and by the reply template. *)
Definition raised_outside_try (e : exn) : Prop :=
  (∃ k, k ∈ connection_keys ∧ e = KeyError k)
  ∨ e = UnicodeEncodeError ∨ e = UnicodeDecodeError
  ∨ e = AttributeError "decode"
  ∨ e = TypeError not_all_converted.

(** Whatever [m] raises satisfies [P]. *)
Definition raises_only (P : exn -> Prop) {A} (m : M A) : Prop :=
  ∀ w w' e, m w = Raise w' e → P e.

(** A request whose whole audience is its submitter. *)
Definition solo_request : ReviewRequest :=
  {| public := true; status := "P"; submitter := alice;
     get_participants := [];
     target_people := [];
     target_groups := [];
     starred_by := [];
     summary := "Tidy the imports";
     get_display_id := 45;
     get_absolute_url := "/r/45/" |}.

(** A user whose name is empty: no address can be made of it. *)
Definition nameless : User :=
  {| pk := 6; username := EmptyString; first_name := "No";
     last_name := "Name"; is_active := true |}.

(** The server refuses every connection. *)
Definition refusing_env : Environment :=
  {| current_site :=
       {| domain := "reviews.example.org"; site_domain_method := "https" |};
     utf8_decode := fun s => if is_ascii s then Some s else None;
     JID_new := example_jid;
     network := fun _ _ _ =>
       {| connect_raises := Some (TransportError "connection refused");
          events := []; ending := LoopBlocks; queued_behind := 0 |} |}.

(** The session is authorized, and the stream breaks when it is written. *)
Definition broken_stream : Stream :=
  {| send_raises := Some (TransportError "broken pipe");
     disconnect_raises := None |}.

Definition broken_pipe_env : Environment :=
  {| current_site :=
       {| domain := "reviews.example.org"; site_domain_method := "https" |};
     utf8_decode := fun s => if is_ascii s then Some s else None;
     JID_new := example_jid;
     network := fun _ _ _ =>
       {| connect_raises := None;
          events := [OtherEvent "ConnectedEvent"; AuthorizedEvent broken_stream;
                     DisconnectedEvent];
          ending := LoopBlocks; queued_behind := 0 |} |}.

(** The session publish opens for bob when alice acts on the example
    request and every session goes through. *)
Definition bob_session : Client :=
  {| client_jid := {| jid_local := Some "rb"; jid_domain := "example.org";
                      jid_resource := None |};
     client_handlers :=
       [{| XmppHandler.target_jid :=
             {| jid_local := Some "bob"; jid_domain := "example.org";
                jid_resource := None |};
           XmppHandler.message :=
             @entry_text open_env Publish alice example_request |}];
     client_settings :=
       {| password := "secret"; starttls := PyBool true;
          tls_verify_peer := false; server := PyUnicode "xmpp.example.org";
          port := PyInt 5222 |};
     client_scenario := happy_scenario |}.

(** * Properties *)

(** ** The set operations *)

Lemma lookup_add (u : User) (s : UserSet) (k : Z) :
  add u s !! k =
  match s !! k with
  | Some v => Some v
  | None => if decide (pk u = k) then Some u else None
  end.
Proof.
  unfold add. destruct (s !! pk u) as [v|] eqn:Hu.
  - destruct (s !! k) eqn:Hk; [done|].
    case_decide; [congruence | done].
  - destruct (decide (pk u = k)) as [<-|Hne].
    + by rewrite lookup_insert_eq, Hu.
    + rewrite lookup_insert_ne by done. by destruct (s !! k).
Qed.

Lemma dom_add (u : User) (s : UserSet) : dom (add u s) = {[ pk u ]} ∪ dom s.
Proof.
  unfold add. destruct (s !! pk u) eqn:Hu.
  - apply elem_of_dom_2 in Hu. set_solver.
  - apply dom_insert_L.
Qed.

Lemma add_present (u : User) (s : UserSet) : pk u ∈ dom s → add u s = s.
Proof.
  intros [v Hv]%elem_of_dom. unfold add. by rewrite Hv.
Qed.

Lemma keys_cons (u : User) (l : list User) : keys (u :: l) = {[ pk u ]} ∪ keys l.
Proof. reflexivity. Qed.

Lemma elem_of_keys (k : Z) (l : list User) :
  k ∈ keys l ↔ ∃ u, u ∈ l ∧ pk u = k.
Proof.
  unfold keys. rewrite elem_of_list_to_set, list_elem_of_fmap. naive_solver.
Qed.

Lemma dom_add_each (l : list User) (s : UserSet) :
  dom (add_each l s) = keys l ∪ dom s.
Proof.
  revert s. induction l as [|u l IH]; intros s; simpl.
  - unfold keys. set_solver.
  - unfold add_each in *. simpl. rewrite IH, dom_add, keys_cons. set_solver.
Qed.

Lemma add_each_present (l : list User) (s : UserSet) :
  keys l ⊆ dom s → add_each l s = s.
Proof.
  revert s. induction l as [|u l IH]; intros s Hs; [done|].
  rewrite keys_cons in Hs. unfold add_each in *. simpl.
  rewrite add_present by set_solver. apply IH. set_solver.
Qed.

Lemma lookup_add_each (l : list User) (s : UserSet) (k : Z) (u : User) :
  add_each l s !! k = Some u → s !! k = Some u ∨ (u ∈ l ∧ pk u = k).
Proof.
  revert s. induction l as [|v l IH]; intros s H; [by left|].
  unfold add_each in *. simpl in H. apply IH in H as [H|[H1 H2]].
  - rewrite lookup_add in H. destruct (s !! k) eqn:Hk; [by left|].
    case_decide; [|done]. injection H as ->. right. split; [|done].
    apply list_elem_of_here.
  - right. split; [|done]. by apply list_elem_of_further.
Qed.

Lemma elem_of_set_iter (s : UserSet) (u : User) :
  u ∈ set_iter s ↔ ∃ k, s !! k = Some u.
Proof.
  unfold set_iter. rewrite list_elem_of_fmap. split.
  - intros [[k v] [-> H]]. exists k. by apply elem_of_map_to_list.
  - intros [k H]. exists (k, u). split; [done|]. by apply elem_of_map_to_list.
Qed.

Lemma discard_discard (u : User) (s : UserSet) :
  discard u (discard u s) = discard u s.
Proof.
  unfold discard. apply map_eq. intros k.
  destruct (decide (pk u = k)) as [->|Hne].
  - by rewrite !lookup_delete_eq.
  - by rewrite !lookup_delete_ne.
Qed.

Lemma discard_absent (u : User) (s : UserSet) :
  s !! pk u = None → discard u s = s.
Proof. intros H. unfold discard. by apply delete_id. Qed.

Lemma discard_not_elem (a u : User) (s : UserSet) :
  u ∈ set_iter (discard a s) → (∀ k v, s !! k = Some v → pk v = k) →
  pk u ≠ pk a.
Proof.
  intros [k Hk]%elem_of_set_iter Hwf. unfold discard in Hk.
  apply lookup_delete_Some in Hk as [Hne Hk]. apply Hwf in Hk. congruence.
Qed.

(** ** Audience resolution *)

Lemma dom_add_groups (gs : list Group.t) (s : UserSet) :
  dom (foldl (fun users group =>
                add_each (filter (fun u => is_active u) (Group.users group))
                         users) s gs)
  = ⋃ ((fun group => keys (filter (fun u => is_active u) (Group.users group)))
        <$> gs) ∪ dom s.
Proof.
  revert s. induction gs as [|g gs IH]; intros s; simpl; [set_solver|].
  rewrite IH, dom_add_each. set_solver.
Qed.

Lemma dom_add_starred (ps : list Profile.t) (s : UserSet) :
  dom (foldl (fun users profile =>
                if is_active (Profile.user profile)
                then add (Profile.user profile) users else users) s ps)
  = keys (filter (fun u => is_active u) (Profile.user <$> ps)) ∪ dom s.
Proof.
  revert s. induction ps as [|p ps IH]; intros s; simpl.
  - unfold keys. set_solver.
  - rewrite IH, filter_cons. destruct (is_active (Profile.user p)) eqn:E.
    + case_decide as Hd; [|by destruct Hd].
      rewrite dom_add, keys_cons. set_solver.
    + case_decide as Hd; [by destruct Hd | done].
Qed.

Lemma dom_resolve_into (s : UserSet) (r : ReviewRequest) :
  dom (resolve_into s r) = audience_spec r ∪ dom s.
Proof.
  unfold resolve_into, audience_spec.
  rewrite dom_add_starred, dom_add_groups, dom_add_each.
  destruct (is_active (submitter r)).
  - rewrite dom_add, dom_add_each. set_solver.
  - rewrite dom_add_each. set_solver.
Qed.

Lemma lookup_add_groups (gs : list Group.t) (s : UserSet) k u :
  foldl (fun users group =>
           add_each (filter (fun u => is_active u) (Group.users group)) users)
        s gs !! k = Some u →
  s !! k = Some u
  ∨ ∃ g, g ∈ gs ∧ u ∈ Group.users g ∧ is_active u ∧ pk u = k.
Proof.
  revert s. induction gs as [|g gs IH]; intros s H; [by left|].
  simpl in H. apply IH in H as [H|(g' & Hg & H)].
  - apply lookup_add_each in H as [H|[[Ha Hu]%list_elem_of_filter Hk]].
    + by left.
    + right. exists g. split; [apply list_elem_of_here | done].
  - right. exists g'. split; [by apply list_elem_of_further | done].
Qed.

Lemma lookup_add_starred (ps : list Profile.t) (s : UserSet) k u :
  foldl (fun users profile =>
           if is_active (Profile.user profile)
           then add (Profile.user profile) users else users) s ps !! k
  = Some u →
  s !! k = Some u
  ∨ ∃ p, p ∈ ps ∧ u = Profile.user p ∧ is_active u ∧ pk u = k.
Proof.
  revert s. induction ps as [|p ps IH]; intros s H; [by left|].
  simpl in H. apply IH in H as [H|(p' & Hp & H)].
  - destruct (is_active (Profile.user p)) eqn:E; [|by left].
    rewrite lookup_add in H. destruct (s !! k) eqn:Hk; [by left|].
    case_decide; [|done]. injection H as <-. right. exists p.
    split; [apply list_elem_of_here|]. by rewrite E.
  - right. exists p'. split; [by apply list_elem_of_further | done].
Qed.

Lemma lookup_resolve_into (s : UserSet) (r : ReviewRequest) k u :
  resolve_into s r !! k = Some u →
  s !! k = Some u ∨ (in_source r u ∧ pk u = k).
Proof.
  unfold resolve_into, in_source. intros H.
  apply lookup_add_starred in H as [H|(p & Hp & -> & Ha & Hk)];
    [|right; split; [|done]; do 4 right; by exists p].
  apply lookup_add_groups in H as [H|(g & Hg & Hu & Ha & Hk)];
    [|right; split; [|done]; do 3 right; left; by exists g].
  apply lookup_add_each in H as [H|[[Ha Hu]%list_elem_of_filter Hk]];
    [|right; split; [|done]; do 2 right; by left].
  assert (add_each (get_participants r) s !! k = Some u
          ∨ (u = submitter r ∧ is_active u ∧ pk u = k)) as [H'|(-> & Ha & Hk)].
  { destruct (is_active (submitter r)) eqn:E; [|by left].
    rewrite lookup_add in H.
    destruct (add_each (get_participants r) s !! k) eqn:Hk; [by left|].
    case_decide; [|done]. injection H as <-. right. by rewrite E. }
  - apply lookup_add_each in H' as [H'|[Hu Hk]]; [by left|].
    right. split; [by left | done].
  - right. split; [|done]. right. by left.
Qed.

Lemma elem_of_audience_spec (r : ReviewRequest) (k : Z) :
  k ∈ audience_spec r ↔ ∃ u, in_source r u ∧ pk u = k.
Proof.
  unfold audience_spec, in_source.
  rewrite !elem_of_union, elem_of_union_list, !elem_of_keys. split.
  - intros [[[[(u & Hu & Hk)|H]|(u & [Ha Hu]%list_elem_of_filter & Hk)]
            |(X & (g & -> & Hg)%list_elem_of_fmap
                & (u & [Ha Hu]%list_elem_of_filter & Hk)%elem_of_keys)]
            |(u & [Ha (p & -> & Hp)%list_elem_of_fmap]%list_elem_of_filter
                & Hk)].
    + exists u. split; [by left | done].
    + destruct (is_active (submitter r)) eqn:E; [|set_solver].
      apply elem_of_singleton in H. exists (submitter r).
      split; [|done]. right. left. by rewrite E.
    + exists u. split; [|done]. do 2 right. by left.
    + exists u. split; [|done]. do 3 right. left. by exists g.
    + exists (Profile.user p). split; [|done]. do 4 right. by exists p.
  - intros (u & [Hu|[[-> Ha]|[[Hu Ha]|[(g & Hg & Hu & Ha)|(p & Hp & -> & Ha)]]]]
              & Hk).
    + do 4 left. by exists u.
    + do 3 left. right. destruct (is_active (submitter r)); [set_solver|done].
    + do 2 left. right. exists u. by rewrite list_elem_of_filter.
    + left. right. eexists. split.
      * apply list_elem_of_fmap. by exists g.
      * apply elem_of_keys. exists u. by rewrite list_elem_of_filter.
    + right. exists (Profile.user p). split; [|done].
      apply list_elem_of_filter. split; [done|].
      apply list_elem_of_fmap. by exists p.
Qed.

Lemma get_users_review_request_lookup (r : ReviewRequest) k u :
  get_users_review_request r !! k = Some u → in_source r u ∧ pk u = k.
Proof.
  intros [H|H]%lookup_resolve_into; [|done]. by rewrite lookup_empty in H.
Qed.

Lemma add_groups_present (gs : list Group.t) (s : UserSet) :
  ⋃ ((fun group => keys (filter (fun u => is_active u) (Group.users group)))
      <$> gs) ⊆ dom s →
  foldl (fun users group =>
           add_each (filter (fun u => is_active u) (Group.users group)) users)
        s gs = s.
Proof.
  revert s. induction gs as [|g gs IH]; intros s Hs; [done|].
  simpl in *. rewrite add_each_present by set_solver. apply IH. set_solver.
Qed.

Lemma add_starred_present (ps : list Profile.t) (s : UserSet) :
  keys (filter (fun u => is_active u) (Profile.user <$> ps)) ⊆ dom s →
  foldl (fun users profile =>
           if is_active (Profile.user profile)
           then add (Profile.user profile) users else users) s ps = s.
Proof.
  revert s. induction ps as [|p ps IH]; intros s Hs; [done|].
  simpl in *. rewrite filter_cons in Hs.
  destruct (is_active (Profile.user p)) eqn:E.
  - case_decide as Hd; [|by destruct Hd]. rewrite keys_cons in Hs.
    rewrite add_present by set_solver. apply IH. set_solver.
  - case_decide as Hd; [by destruct Hd|]. by apply IH.
Qed.

Lemma resolve_into_present (s : UserSet) (r : ReviewRequest) :
  audience_spec r ⊆ dom s → resolve_into s r = s.
Proof.
  unfold audience_spec, resolve_into. intros Hs.
  rewrite (add_each_present (get_participants r)) by set_solver.
  assert ((if is_active (submitter r) then add (submitter r) s else s) = s)
    as ->.
  { destruct (is_active (submitter r)); [|done].
    apply add_present. set_solver. }
  rewrite (add_each_present _ s) by set_solver.
  rewrite add_groups_present by set_solver.
  apply add_starred_present. set_solver.
Qed.

Lemma groups_permuted_elem (gs gs' : list Group.t) (u : User) :
  groups_permuted gs gs' →
  (∃ g, g ∈ gs ∧ u ∈ Group.users g ∧ is_active u)
  ↔ (∃ g, g ∈ gs' ∧ u ∈ Group.users g ∧ is_active u).
Proof.
  intros (gs1 & Hperm & HF). split.
  - intros (g & Hg & Hu & Ha). rewrite Hperm in Hg.
    apply list_elem_of_lookup in Hg as [i Hi].
    destruct (Forall2_lookup_l _ _ _ _ _ HF Hi) as (g' & Hi' & Hgg').
    exists g'. split; [by eapply list_elem_of_lookup_2|].
    unfold group_permuted in Hgg'. by rewrite <- Hgg'.
  - intros (g' & Hg' & Hu & Ha).
    apply list_elem_of_lookup in Hg' as [i Hi'].
    destruct (Forall2_lookup_r _ _ _ _ _ HF Hi') as (g & Hi & Hgg').
    exists g. split; [rewrite Hperm; by eapply list_elem_of_lookup_2|].
    unfold group_permuted in Hgg'. by rewrite Hgg'.
Qed.

Lemma in_source_permuted (r r' : ReviewRequest) (u : User) :
  request_permuted r r' → in_source r u ↔ in_source r' u.
Proof.
  intros [Hs Hp Ht Hg Hb]. unfold in_source.
  rewrite Hs, Hp, Ht, (groups_permuted_elem _ _ u Hg).
  assert ((∃ p, p ∈ starred_by r ∧ u = Profile.user p ∧ is_active u)
          ↔ (∃ p, p ∈ starred_by r' ∧ u = Profile.user p ∧ is_active u))
    as ->; [|done].
  split; intros (p & Hin & H); exists p; split; try done.
  - by rewrite <- Hb.
  - by rewrite Hb.
Qed.

Lemma audience_spec_permuted (r r' : ReviewRequest) :
  request_permuted r r' → audience_spec r = audience_spec r'.
Proof.
  intros H. apply set_eq. intros k. rewrite !elem_of_audience_spec.
  split; intros (u & Hu & Hk); exists u; split; try done.
  - by apply (in_source_permuted r r').
  - by apply (in_source_permuted r r').
Qed.

Lemma dom_get_users_review_request (r : ReviewRequest) :
  dom (get_users_review_request r) = audience_spec r.
Proof.
  unfold get_users_review_request. rewrite dom_resolve_into, dom_empty_L.
  set_solver.
Qed.

(** C1: the audience is the union of the five sources: the participants
    unfiltered, the submitter when active, and the active members of
    [target_people], of each group of [target_groups] and of [starred_by];
    it is empty when no source contributes. *)
Theorem get_users_review_request_union (r : ReviewRequest) :
  dom (get_users_review_request r) = audience_spec r
  ∧ (∀ u, u ∈ set_iter (get_users_review_request r) → in_source r u)
  ∧ (∀ u, in_source r u → pk u ∈ dom (get_users_review_request r))
  ∧ ((∀ u, ¬ in_source r u) → get_users_review_request r = ∅).
Proof.
  pose proof (dom_get_users_review_request r) as Hdom.
  split; [done|]. split; [|split].
  - intros u [k Hk]%elem_of_set_iter.
    by apply get_users_review_request_lookup in Hk as [? _].
  - intros u Hu. rewrite Hdom. apply elem_of_audience_spec. by exists u.
  - intros Hnone. apply map_eq. intros k. rewrite lookup_empty.
    destruct (get_users_review_request r !! k) as [u|] eqn:Hk; [|done].
    apply get_users_review_request_lookup in Hk as [Hu _].
    by destruct (Hnone u).
Qed.

(** C9: resolution does not depend on the order in which the collections of
    the request are enumerated, and running the resolver again over its own
    result adds nothing. *)
Theorem resolution_order_independent (r r' : ReviewRequest) :
  request_permuted r r' →
  dom (get_users_review_request r) = dom (get_users_review_request r')
  ∧ (consistent r → get_users_review_request r = get_users_review_request r')
  ∧ resolve_into (get_users_review_request r) r = get_users_review_request r.
Proof.
  intros Hperm.
  pose proof (dom_get_users_review_request r) as Hd.
  pose proof (dom_get_users_review_request r') as Hd'.
  assert (dom (get_users_review_request r)
          = dom (get_users_review_request r')) as Hdom.
  { rewrite Hd, Hd'. by apply audience_spec_permuted. }
  split; [done|]. split.
  - intros Hc. apply map_eq. intros k.
    destruct (get_users_review_request r !! k) as [u|] eqn:Hk;
      destruct (get_users_review_request r' !! k) as [u'|] eqn:Hk'.
    + apply get_users_review_request_lookup in Hk as [Hu Hku].
      apply get_users_review_request_lookup in Hk' as [Hu' Hku'].
      apply (in_source_permuted r r') in Hu'; [|done].
      f_equal. apply Hc; [done..|congruence].
    + apply elem_of_dom_2 in Hk. rewrite Hdom in Hk.
      apply elem_of_dom in Hk as [? ?]. congruence.
    + apply elem_of_dom_2 in Hk'. rewrite <- Hdom in Hk'.
      apply elem_of_dom in Hk' as [? ?]. congruence.
    + done.
  - apply resolve_into_present. by rewrite Hd.
Qed.

(** ** Formatting *)

Lemma append_empty (s : string) : s +:+ EmptyString = s.
Proof.
  induction s as [|c s IH]; [done|].
  change (String c (s +:+ EmptyString) = String c s). by f_equal.
Qed.

Lemma published_text (user : User) (r : ReviewRequest) (b : string) :
  py_format published_template (message_args user r b)
  = inr (notification_text "published review request" user r b).
Proof.
  lazy -[String.append pretty]. rewrite append_empty. reflexivity.
Qed.

Lemma reopened_text (user : User) (r : ReviewRequest) (b : string) :
  py_format reopened_template (message_args user r b)
  = inr (notification_text "reopened review request" user r b).
Proof.
  lazy -[String.append pretty]. rewrite append_empty. reflexivity.
Qed.

Lemma closed_text (user : User) (r : ReviewRequest) (b : string) :
  py_format closed_template (message_args user r b)
  = inr (notification_text "closed review request" user r b).
Proof.
  lazy -[String.append pretty]. rewrite append_empty. reflexivity.
Qed.

Lemma reviewed_text (user : User) (r : ReviewRequest) (b : string) :
  py_format reviewed_template (message_args user r b)
  = inr (notification_text "reviewed request" user r b).
Proof.
  lazy -[String.append pretty]. rewrite append_empty. reflexivity.
Qed.

(** The reply template escapes the percent sign of its fifth conversion, so
    five arguments are converted and the sixth is left over. *)
Lemma replied_raises (user : User) (r : ReviewRequest) (b : string) :
  py_format replied_template (message_args user r b)
  = inl (TypeError not_all_converted).
Proof. reflexivity. Qed.

(** ** Runs and the traces they leave *)

Section Frame.
Variable R : World -> World -> Prop.
Hypothesis R_refl : ∀ w, R w w.
Hypothesis R_trans : ∀ w1 w2 w3, R w1 w2 → R w2 w3 → R w1 w3.

Lemma respects_ret {A} (a : A) : respects R (ret a).
Proof. intros w. apply R_refl. Qed.

Lemma respects_raise {A} (e : exn) : respects R (@raise A e).
Proof. intros w. apply R_refl. Qed.

Lemma respects_block {A} : respects R (@block A).
Proof. intros w. apply R_refl. Qed.

Lemma respects_lift {A} (r : exn + A) : respects R (lift r).
Proof. destruct r; [apply respects_raise | apply respects_ret]. Qed.

Lemma respects_bind {A B} (m : M A) (k : A -> M B) :
  respects R m → (∀ a, respects R (k a)) → respects R (bind m k).
Proof.
  intros Hm Hk w. specialize (Hm w). unfold bind.
  destruct (m w) as [w' a|w' e|w']; simpl in *; [|done..].
  eapply R_trans; [done | apply Hk].
Qed.

Lemma respects_bind_lift {A B} (r : exn + A) (k : A -> M B) :
  (∀ a, r = inr a → respects R (k a)) → respects R (bind (lift r) k).
Proof.
  intros Hk w. unfold bind. destruct r as [e|a]; simpl; [apply R_refl|].
  by apply Hk.
Qed.

Lemma respects_try_except {A} (m : M A) (h : exn -> M A) :
  respects R m → (∀ e, respects R (h e)) → respects R (try_except m h).
Proof.
  intros Hm Hh w. specialize (Hm w). unfold try_except.
  destruct (m w) as [w' a|w' e|w']; simpl in *; [done| |done].
  eapply R_trans; [done | apply Hh].
Qed.

Lemma respects_for_each {A} (l : list A) (body : A -> M unit) :
  (∀ x, respects R (body x)) → respects R (for_each l body).
Proof.
  intros Hb. induction l as [|x l IH]; simpl; [apply respects_ret|].
  apply respects_bind; [apply Hb | done].
Qed.
End Frame.

Lemma respects_bind_post (R : World -> World -> Prop) {A B} (P : A -> Prop)
    (m : M A) (k : A -> M B) :
  (∀ w1 w2 w3, R w1 w2 → R w2 w3 → R w1 w3) →
  respects R m →
  (∀ w w' a, m w = Return w' a → P a) →
  (∀ a, P a → respects R (k a)) →
  respects R (bind m k).
Proof.
  intros R_trans Hm HP Hk w. specialize (Hm w). specialize (HP w).
  unfold bind. destruct (m w) as [w' a|w' e|w']; simpl in *; [|done..].
  eapply R_trans; [done|]. apply Hk. by eapply HP.
Qed.

Lemma extends_with_refl (msg : string) (w : World) : extends_with [] msg w w.
Proof.
  split; simpl; [by rewrite app_nil_r|].
  exists []. split; [by rewrite app_nil_r|]. by intros m H%elem_of_nil.
Qed.

Lemma extends_with_trans (us1 us2 : list User) (msg : string)
    (w1 w2 w3 : World) :
  extends_with us1 msg w1 w2 → extends_with us2 msg w2 w3 →
  extends_with (us1 ++ us2) msg w1 w3.
Proof.
  intros [Hc1 (n1 & Hw1 & Hb1)] [Hc2 (n2 & Hw2 & Hb2)]. split.
  - by rewrite Hc2, Hc1, fmap_app, app_assoc.
  - exists (n1 ++ n2). split; [by rewrite Hw2, Hw1, app_assoc|].
    intros m [H|H]%elem_of_app; auto.
Qed.

Lemma quiet_trans (msg : string) (w1 w2 w3 : World) :
  extends_with [] msg w1 w2 → extends_with [] msg w2 w3 →
  extends_with [] msg w1 w3.
Proof. apply (extends_with_trans [] []). Qed.

Lemma extends_with_same (msg : string) (w w' : World) :
  calls w' = calls w → wire w' = wire w → extends_with [] msg w w'.
Proof.
  intros Hc Hw. split; simpl; [by rewrite app_nil_r|].
  exists []. split; [by rewrite app_nil_r|]. by intros m H%elem_of_nil.
Qed.

Lemma quiet_log (msg : string) (r : LogRecord) :
  respects (extends_with [] msg) (logging r).
Proof. intros w. by apply extends_with_same. Qed.

Lemma quiet_record_client (msg : string) (c : Client) :
  respects (extends_with [] msg) (record_client c).
Proof. intros w. by apply extends_with_same. Qed.

Lemma quiet_emit (msg : string) (a : StreamAction) :
  (∀ m, a = Sent m → body m = msg) →
  respects (extends_with [] msg) (emit a).
Proof.
  intros Ha w. split; simpl; [by rewrite app_nil_r|].
  exists [a]. split; [done|]. intros m Hm%list_elem_of_singleton.
  by apply Ha.
Qed.

Create HintDb frame.

Lemma quiet_ret (msg : string) {A} (a : A) :
  respects (extends_with [] msg) (ret a).
Proof. apply respects_ret, extends_with_refl. Qed.

Lemma quiet_raise (msg : string) {A} (e : exn) :
  respects (extends_with [] msg) (@raise A e).
Proof. apply respects_raise, extends_with_refl. Qed.

Lemma quiet_block (msg : string) {A} :
  respects (extends_with [] msg) (@block A).
Proof. apply respects_block, extends_with_refl. Qed.

Lemma quiet_lift (msg : string) {A} (r : exn + A) :
  respects (extends_with [] msg) (lift r).
Proof. apply respects_lift, extends_with_refl. Qed.

Lemma quiet_bind (msg : string) {A B} (m : M A) (k : A -> M B) :
  respects (extends_with [] msg) m →
  (∀ a, respects (extends_with [] msg) (k a)) →
  respects (extends_with [] msg) (bind m k).
Proof. apply respects_bind, quiet_trans. Qed.

Lemma quiet_bind_lift (msg : string) {A B} (r : exn + A) (k : A -> M B) :
  (∀ a, r = inr a → respects (extends_with [] msg) (k a)) →
  respects (extends_with [] msg) (bind (lift r) k).
Proof. apply respects_bind_lift, extends_with_refl. Qed.

Lemma quiet_try_except (msg : string) {A} (m : M A) (h : exn -> M A) :
  respects (extends_with [] msg) m →
  (∀ e, respects (extends_with [] msg) (h e)) →
  respects (extends_with [] msg) (try_except m h).
Proof. apply respects_try_except, quiet_trans. Qed.

#[local] Hint Resolve quiet_ret quiet_raise quiet_block quiet_lift quiet_log
  quiet_record_client : frame.

Lemma quiet_getitem (msg : string) (d : gmap string PyVal) (key : string) :
  respects (extends_with [] msg) (getitem d key).
Proof. unfold getitem. destruct (d !! key); auto with frame. Qed.

Lemma quiet_handle_authorized (msg : string) (h : XmppHandler.t)
    (stream : Stream) :
  XmppHandler.message h = msg →
  respects (extends_with [] msg) (handle_authorized h stream).
Proof.
  intros Hh. unfold handle_authorized, stream_send, stream_disconnect.
  apply quiet_bind; [|intros _].
  { destruct (send_raises stream); [auto with frame|].
    apply quiet_emit. by intros m [= <-]. }
  apply quiet_bind; [|intros _; auto with frame].
  destruct (disconnect_raises stream); [auto with frame|].
  by apply quiet_emit.
Qed.

Lemma quiet_handle_event (msg : string) (h : XmppHandler.t) (ev : Event) :
  XmppHandler.message h = msg →
  respects (extends_with [] msg) (handle_event h ev).
Proof.
  intros Hh. unfold handle_event, handle_all, handle_disconnected.
  apply quiet_bind; [apply quiet_bind; auto with frame|intros r1].
  apply quiet_bind; [|intros r2; auto with frame].
  destruct ev; auto using quiet_handle_authorized with frame.
Qed.

Lemma quiet_dispatch (msg : string) (hs : list XmppHandler.t) (ev : Event) :
  Forall (fun h => XmppHandler.message h = msg) hs →
  respects (extends_with [] msg) (dispatch hs ev).
Proof.
  induction 1 as [|h hs Hh Hhs IH]; simpl; [auto with frame|].
  apply quiet_bind; [by apply quiet_handle_event|intros r].
  apply quiet_bind; [done|intros rs; auto with frame].
Qed.

Lemma quiet_drain (msg : string) (hs : list XmppHandler.t) (evs : list Event) :
  Forall (fun h => XmppHandler.message h = msg) hs →
  respects (extends_with [] msg) (drain hs evs).
Proof.
  intros Hhs. induction evs as [|ev evs IH]; simpl; [auto with frame|].
  apply quiet_bind; [by apply quiet_dispatch | done].
Qed.

Lemma quiet_loop (msg : string) (hs : list XmppHandler.t) (evs : list Event)
    (fin : Ending) (queued : nat) :
  Forall (fun h => XmppHandler.message h = msg) hs →
  respects (extends_with [] msg) (loop hs evs fin queued).
Proof.
  intros Hhs. induction evs as [|ev evs IH]; simpl.
  - destruct fin; auto with frame.
  - apply quiet_bind; [by apply quiet_dispatch|].
    intros [|]; [by apply quiet_drain | done].
Qed.

(** ** The dispatcher *)

Section Pipeline.
Context `{E : Environment}.

Lemma get_base_url_ok : get_base_url = inr base_url.
Proof.
  unfold get_base_url, base_url.
  lazy -[String.append site_domain_method domain current_site].
  rewrite append_empty. reflexivity.
Qed.

Lemma decode_unicode (s a : string) :
  decode_utf8 (PyUnicode s) = inr a → a = s ∧ is_ascii s = true.
Proof. simpl. destruct (is_ascii s); [|done]. by intros [= <-]. Qed.

Lemma quiet_Client_new (msg : string) (jid : JID)
    (hs : list XmppHandler.t) (st : XMPPSettings) :
  respects (extends_with [] msg) (Client_new jid hs st).
Proof. intros w. by apply extends_with_same. Qed.

Lemma Client_new_handlers (jid : JID) (hs : list XmppHandler.t)
    (st : XMPPSettings) (w w' : World) (c : Client) :
  Client_new jid hs st w = Return w' c →
  client_handlers c = hs
  ∧ client_scenario c = network (length (clients w)) jid st.
Proof. unfold Client_new, bind, record_client, ret. by intros [= _ <-]. Qed.

Lemma quiet_connect (msg : string) (c : Client) :
  respects (extends_with [] msg) (connect c).
Proof.
  unfold connect. destruct (connect_raises _); auto with frame.
Qed.

Lemma quiet_run (msg : string) (c : Client) :
  Forall (fun h => XmppHandler.message h = msg) (client_handlers c) →
  respects (extends_with [] msg) (run c).
Proof. intros H. by apply quiet_loop. Qed.

Lemma after_record_call (u : User) (msg : string) (k : M unit) (w : World) :
  respects (extends_with [] msg) k →
  extends_with [u] msg w (final ((record_call u msg >>> k) w)).
Proof.
  intros Hk. unfold bind, record_call.
  eapply (extends_with_trans [u] [] msg); [|apply Hk].
  split; simpl; [done|]. exists []. split; [by rewrite app_nil_r|].
  by intros m H%elem_of_nil.
Qed.

(** A call of [send_xmpp_message] is recorded once, and what it sends on the
    stream carries the text it was given. *)
Lemma send_xmpp_message_trace (self : XmppClient) (u : User) (msg : string)
    (w : World) :
  extends_with [u] msg w (final (send_xmpp_message self u msg w)).
Proof.
  unfold send_xmpp_message. apply after_record_call.
  do 5 (apply quiet_bind; [apply quiet_getitem | intros ?]).
  do 2 (apply quiet_bind_lift; intros ? _).
  apply quiet_bind_lift. intros message [-> _]%decode_unicode.
  apply quiet_try_except; [|intros e; apply quiet_log]. unfold deliver.
  do 2 (apply quiet_bind_lift; intros ? _).
  eapply (respects_bind_post _ (fun c => client_handlers c = [_])).
  - apply quiet_trans.
  - apply quiet_Client_new.
  - intros w1 w2 c Hc. by apply Client_new_handlers in Hc as [-> _].
  - intros c Hc. apply quiet_bind; [apply quiet_connect|intros _].
    apply quiet_run. rewrite Hc. by constructor.
Qed.

Lemma fan_out_trace (self : XmppClient) (msg : string) (l : list User)
    (w : World) :
  ∃ l1 l2, l = l1 ++ l2
    ∧ extends_with l1 msg w
        (final (for_each l (fun u => send_xmpp_message self u msg) w)).
Proof.
  revert w. induction l as [|u l IH]; intros w.
  - exists [], []. split; [done|]. apply extends_with_refl.
  - simpl. unfold bind.
    pose proof (send_xmpp_message_trace self u msg w) as Hu.
    destruct (send_xmpp_message self u msg w) as [w1 []|w1 e|w1];
      simpl in Hu.
    + destruct (IH w1) as (l1 & l2 & -> & H). exists (u :: l1), l2.
      split; [done|]. by apply (extends_with_trans [u] l1 msg w w1).
    + exists [u], l. by split.
    + exists [u], l. by split.
Qed.

Lemma bind_lift_inr {A B} (a : A) (k : A -> M B) :
  bind (lift (inr a)) k = k a.
Proof. reflexivity. Qed.

Lemma bind_lift_inl {A B} (e : exn) (k : A -> M B) :
  bind (lift (inl e)) k = raise e.
Proof. reflexivity. Qed.

Lemma entry_suppressed (ep : EntryPoint) (self : XmppClient) (user : User)
    (r : ReviewRequest) :
  gate ep r = false → entry ep self user r = ret tt.
Proof.
  destruct ep; simpl; intros H;
    [unfold send_review_request_published
    |unfold send_review_request_reopened
    |unfold send_review_request_closed
    |unfold send_review_published
    |unfold send_reply_published]; simpl;
    try (by rewrite H).
  apply negb_false_iff in H. by rewrite H.
Qed.

Lemma entry_dispatches (ep : EntryPoint) (self : XmppClient) (user : User)
    (r : ReviewRequest) :
  ep ≠ ReplyPosted → gate ep r = true →
  entry ep self user r
  = for_each (recipients user r)
      (fun u => send_xmpp_message self u (entry_text ep user r)).
Proof.
  intros Hep H. destruct ep; simpl in *; [..|done];
    [unfold send_review_request_published
    |unfold send_review_request_reopened
    |unfold send_review_request_closed
    |unfold send_review_published];
    cbn [Review.review_request Reply.base_reply_to].
  - rewrite H, get_base_url_ok, bind_lift_inr, published_text. reflexivity.
  - rewrite H, get_base_url_ok, bind_lift_inr, reopened_text. reflexivity.
  - apply negb_true_iff in H.
    rewrite H, get_base_url_ok, bind_lift_inr, closed_text. reflexivity.
  - rewrite H, get_base_url_ok, bind_lift_inr, reviewed_text. reflexivity.
Qed.

Lemma entry_reply_raises (self : XmppClient) (user : User)
    (r : ReviewRequest) :
  public r = true →
  entry ReplyPosted self user r = raise (TypeError not_all_converted).
Proof.
  intros H. simpl. unfold send_reply_published.
  cbn [Review.review_request Reply.base_reply_to].
  rewrite H, get_base_url_ok, bind_lift_inr, replied_raises. reflexivity.
Qed.

Lemma entry_trace (ep : EntryPoint) (self : XmppClient) (user : User)
    (r : ReviewRequest) (w : World) :
  ∃ l1 l2, recipients user r = l1 ++ l2
    ∧ extends_with l1 (entry_text ep user r) w
        (final (entry ep self user r w)).
Proof.
  destruct (gate ep r) eqn:Hg.
  - destruct (decide (ep = ReplyPosted)) as [->|Hep].
    + rewrite entry_reply_raises by done.
      exists [], (recipients user r). split; [done|]. apply extends_with_refl.
    + rewrite entry_dispatches by done. apply fan_out_trace.
  - rewrite entry_suppressed by done.
    exists [], (recipients user r). split; [done|]. apply extends_with_refl.
Qed.

(** ** Sessions that end, and the [except] clause *)

Lemma comes_back_bind {A B} (m : M A) (k : A -> M B) :
  comes_back m → (∀ w w' a, m w = Return w' a → comes_back (k a)) →
  comes_back (bind m k).
Proof.
  intros Hm Hk w. specialize (Hm w). specialize (Hk w). unfold bind.
  destruct (m w) as [w' a|w' e|w']; [|done..]. by eapply Hk.
Qed.

Lemma comes_back_lift {A} (r : exn + A) : comes_back (lift r).
Proof. by destruct r. Qed.

Lemma handle_event_comes_back (h : XmppHandler.t) (ev : Event) :
  comes_back (handle_event h ev).
Proof.
  intros w. unfold handle_event, handle_all, handle_authorized,
    handle_disconnected, stream_send, stream_disconnect, bind, logging.
  destruct ev as [stream| |name]; simpl; [|done..].
  destruct (send_raises stream); simpl; [done|].
  by destruct (disconnect_raises stream).
Qed.

Lemma dispatch_comes_back (hs : list XmppHandler.t) (ev : Event) :
  comes_back (dispatch hs ev).
Proof.
  induction hs as [|h hs IH]; simpl; [done|].
  apply comes_back_bind; [apply handle_event_comes_back|intros _ _ r _].
  apply comes_back_bind; [done | by intros _ _ rs _ w].
Qed.

Lemma drain_comes_back (hs : list XmppHandler.t) (evs : list Event) :
  comes_back (drain hs evs).
Proof.
  induction evs as [|ev evs IH]; simpl; [done|].
  apply comes_back_bind; [apply dispatch_comes_back | done].
Qed.

Lemma loop_comes_back (h : XmppHandler.t) (evs : list Event) (fin : Ending)
    (queued : nat) :
  events_end evs fin = true → comes_back (loop [h] evs fin queued).
Proof.
  induction evs as [|ev evs IH]; simpl; intros Hend w.
  - by destruct fin.
  - destruct ev as [stream| |name];
      unfold bind, handle_event, handle_all, handle_authorized,
        handle_disconnected, stream_send, stream_disconnect, bind, logging;
      simpl.
    + destruct (send_raises stream); simpl; [done|].
      destruct (disconnect_raises stream); simpl; [done|].
      by apply IH.
    + apply drain_comes_back.
    + by apply IH.
Qed.

Lemma session_comes_back (c : Client) (h : XmppHandler.t) :
  client_handlers c = [h] → session_ends (client_scenario c) = true →
  comes_back (connect c >>> run c).
Proof.
  unfold session_ends, connect, run. intros -> Hend w. unfold bind.
  destruct (connect_raises (client_scenario c)); simpl; [done|].
  by apply loop_comes_back.
Qed.

Lemma returns_try_except (m : M unit) (subject : string) :
  comes_back m →
  returns (try_except m (fun e => logging (LogError subject e))).
Proof.
  intros Hm w. specialize (Hm w). unfold try_except.
  destruct (m w) as [w' []|w' e|w']; [by eexists _, _| |done].
  by eexists _, _.
Qed.

Lemma returns_bind {A B} (m : M A) (k : A -> M B) (a : A) :
  (∀ w, ∃ w', m w = Return w' a) → returns (k a) → returns (bind m k).
Proof.
  intros Hm Hk w. destruct (Hm w) as [w' Hw]. unfold bind. rewrite Hw.
  apply Hk.
Qed.

Lemma returns_bind_ret {A B} (a : A) (k : A -> M B) :
  returns (k a) → returns (bind (ret a) k).
Proof. apply returns_bind. intros w. by exists w. Qed.

(** With the connection parameters in place and a text the ASCII codec
    accepts, a call of [send_xmpp_message] returns normally whatever the
    address parser and the session do, short of blocking. *)
Lemma send_xmpp_message_returns (self : XmppClient) (u : User)
    (msg : string) (host port tls : PyVal) (jid pass : string) :
  configured self host port tls jid pass → is_ascii msg = true →
  sessions_end → returns (send_xmpp_message self u msg).
Proof.
  intros [Hh Hp (vj & Hj & Hdj) (vp & Hpw & Hdp) Ht] Hascii Hend.
  unfold send_xmpp_message, getitem. rewrite Hh, Hp, Hj, Hpw, Ht.
  apply (returns_bind _ _ tt); [intros w; by eexists|].
  do 5 apply returns_bind_ret. rewrite Hdj, Hdp.
  simpl decode_utf8. rewrite Hascii.
  do 3 apply (returns_bind_ret (A:=string)).
  apply returns_try_except. unfold deliver.
  apply comes_back_bind; [apply comes_back_lift|intros _ _ sj _].
  apply comes_back_bind; [apply comes_back_lift|intros _ _ tj _].
  apply comes_back_bind; [done|intros w w' c [Hc Hs]%Client_new_handlers].
  eapply session_comes_back; [done|]. rewrite Hs. apply Hend.
Qed.

(** The settings are read before the [try] block: a missing one raises
    [KeyError] to the caller. *)
Lemma send_xmpp_message_missing (self : XmppClient) (u : User) (msg : string)
    (k : string) (w : World) :
  k ∈ ["xmpp_host"; "xmpp_port"; "xmpp_sender_jid"; "xmpp_sender_password";
       "xmpp_use_tls"] →
  Extension.settings (extension self) !! k = None →
  ∃ w' k', send_xmpp_message self u msg w = Raise w' (KeyError k').
Proof.
  intros Hk Hnone. unfold send_xmpp_message, getitem, bind, record_call.
  destruct (Extension.settings (extension self) !! "xmpp_host") eqn:H1;
    [|by eexists _, _].
  destruct (Extension.settings (extension self) !! "xmpp_port") eqn:H2;
    [|by eexists _, _].
  destruct (Extension.settings (extension self) !! "xmpp_sender_jid") eqn:H3;
    [|by eexists _, _].
  destruct (Extension.settings (extension self) !! "xmpp_sender_password")
    eqn:H4; [|by eexists _, _].
  destruct (Extension.settings (extension self) !! "xmpp_use_tls") eqn:H5;
    [|by eexists _, _].
  repeat (apply elem_of_cons in Hk as [->|Hk]; [congruence|]).
  by apply elem_of_nil in Hk.
Qed.

(** With the settings in place, a call is the [try] statement run after the
    call has been recorded. *)
Lemma send_xmpp_message_configured (self : XmppClient) (u : User)
    (msg : string) (host prt tls : PyVal) (jid pass : string) (w : World) :
  configured self host prt tls jid pass → is_ascii msg = true →
  send_xmpp_message self u msg w
  = try_except (deliver u msg host prt tls jid pass)
      (fun e => logging (LogError "boo" e)) (final (record_call u msg w)).
Proof.
  intros [Hh Hp (vj & Hj & Hdj) (vp & Hpw & Hdp) Ht] Hascii.
  unfold send_xmpp_message, getitem. rewrite Hh, Hp, Hj, Hpw, Ht.
  unfold bind, record_call, ret, lift. simpl.
  rewrite Hdj. simpl. rewrite Hdp. simpl. rewrite Hascii. reflexivity.
Qed.

(** What the [try] block raises is logged, and the call returns. *)
Lemma send_xmpp_message_absorbs (self : XmppClient) (u : User)
    (msg : string) (host prt tls : PyVal) (jid pass : string)
    (w w' : World) (e : exn) :
  configured self host prt tls jid pass → is_ascii msg = true →
  deliver u msg host prt tls jid pass (final (record_call u msg w))
  = Raise w' e →
  send_xmpp_message self u msg w = logging (LogError "boo" e) w'.
Proof.
  intros Hc Ha Hd. rewrite (send_xmpp_message_configured _ _ _ _ _ _ _ _ _ Hc Ha).
  unfold try_except. by rewrite Hd.
Qed.

Lemma fan_out_returns (self : XmppClient) (msg : string) (l : list User)
    (host port tls : PyVal) (jid pass : string) (w : World) :
  configured self host port tls jid pass → is_ascii msg = true →
  sessions_end →
  ∃ w', for_each l (fun u => send_xmpp_message self u msg) w = Return w' tt
        ∧ extends_with l msg w w'.
Proof.
  intros Hc Ha He. revert w. induction l as [|u l IH]; intros w.
  - exists w. split; [done|]. apply extends_with_refl.
  - simpl. unfold bind.
    pose proof (send_xmpp_message_trace self u msg w) as Hu.
    destruct (send_xmpp_message_returns self u msg _ _ _ _ _ Hc Ha He w)
      as (w1 & [] & Hw1).
    rewrite Hw1 in Hu |- *. simpl in Hu.
    destruct (IH w1) as (w' & Hw' & Ht). exists w'. split; [done|].
    by apply (extends_with_trans [u] l msg w w1).
Qed.

Lemma new_calls_extends (us : list User) (msg : string) (w w' : World) :
  extends_with us msg w w' → new_calls w w' = (fun u => (u, msg)) <$> us.
Proof.
  intros [Hc _]. unfold new_calls. rewrite Hc. apply drop_app_length.
Qed.

Lemma new_wire_extends (us : list User) (msg : string) (w w' : World)
    (m : Message) :
  extends_with us msg w w' → Sent m ∈ new_wire w w' → body m = msg.
Proof.
  intros [_ (new & Hw & Hb)]. unfold new_wire. rewrite Hw, drop_app_length.
  apply Hb.
Qed.

Lemma entry_dispatches_all (ep : EntryPoint) (self : XmppClient)
    (user : User) (r : ReviewRequest) (host prt tls : PyVal)
    (jid pass : string) (w : World) :
  configured self host prt tls jid pass → sessions_end →
  is_ascii (entry_text ep user r) = true →
  ep ≠ ReplyPosted → gate ep r = true →
  ∃ w', entry ep self user r w = Return w' tt
        ∧ extends_with (recipients user r) (entry_text ep user r) w w'.
Proof.
  intros Hc He Ha Hep Hg. rewrite entry_dispatches by done.
  by eapply fan_out_returns.
Qed.

(** C2, as amended: with the five connection parameters present and
    decodable, a message text the ASCII codec accepts and sessions that
    end, every entry point returns normally (the reply entry point: on
    requests that are not public); whatever the [try] block of a dispatch
    call raises, from the address parser or from the session, is logged and
    the call returns. *)
Theorem entry_returns_normally (ep : EntryPoint) (self : XmppClient)
    (user : User) (r : ReviewRequest) (host prt tls : PyVal)
    (jid pass : string) (w : World) :
  configured self host prt tls jid pass →
  sessions_end →
  is_ascii (entry_text ep user r) = true →
  (ep = ReplyPosted → public r = false) →
  (∃ w', entry ep self user r w = Return w' tt)
  ∧ (∀ u w1 w2 e,
       deliver u (entry_text ep user r) host prt tls jid pass
         (final (record_call u (entry_text ep user r) w1)) = Raise w2 e →
       send_xmpp_message self u (entry_text ep user r) w1
       = logging (LogError "boo" e) w2).
Proof.
  intros Hc He Ha Hreply. split.
  - destruct (gate ep r) eqn:Hg.
    + destruct (decide (ep = ReplyPosted)) as [->|Hep].
      * simpl in Hg. rewrite Hreply in Hg; done.
      * destruct (entry_dispatches_all ep self user r _ _ _ _ _ w Hc He Ha
                    Hep Hg) as (w' & Hw' & _).
        by exists w'.
    + rewrite entry_suppressed by done. by exists w.
  - intros u w1 w2 e. by apply send_xmpp_message_absorbs.
Qed.

(** C4: on a request that is not public, publish, reopen, review_posted and
    reply_posted return at once and leave no trace; on a discarded request
    so does close; on any other status close goes on to resolve the audience
    and to dispatch its text to each member but the actor. *)
Theorem gates_suppress_dispatch (self : XmppClient) (user : User)
    (r : ReviewRequest) (w : World) :
  (public r = false →
     (∀ changedesc,
        send_review_request_published self user r changedesc w = Return w tt)
     ∧ send_review_request_reopened self user r w = Return w tt
     ∧ (∀ review, Review.review_request review = r →
          send_review_published self user review w = Return w tt)
     ∧ (∀ reply, Review.review_request (Reply.base_reply_to reply) = r →
          send_reply_published self user reply w = Return w tt))
  ∧ (status r = "D" → send_review_request_closed self user r w = Return w tt)
  ∧ (status r ≠ "D" →
       send_review_request_closed self user r w
       = for_each (set_iter (discard user (get_users_review_request r)))
           (fun u => send_xmpp_message self u (entry_text Close user r)) w).
Proof.
  split; [|split].
  - intros Hp. repeat split.
    + intros cd. unfold send_review_request_published. by rewrite Hp.
    + unfold send_review_request_reopened. by rewrite Hp.
    + intros review <-. unfold send_review_published. by rewrite Hp.
    + intros reply <-. unfold send_reply_published. by rewrite Hp.
  - intros Hs. unfold send_review_request_closed. by rewrite Hs.
  - intros Hs. apply String.eqb_neq in Hs.
    change (send_review_request_closed self user r)
      with (entry Close self user r).
    rewrite entry_dispatches; [done..|]. simpl. by rewrite Hs.
Qed.

(** C5: no entry point calls the dispatcher for the acting user, whatever
    the collections of the request hold; discarding the actor twice is
    discarding once, and discarding an absent actor changes nothing. *)
Theorem actor_never_dispatched (ep : EntryPoint) (self : XmppClient)
    (actor : User) (r : ReviewRequest) (w : World) :
  (∀ u m, (u, m) ∈ new_calls w (final (entry ep self actor r w)) →
          pk u ≠ pk actor)
  ∧ (∀ s, discard actor (discard actor s) = discard actor s)
  ∧ (∀ s : UserSet, s !! pk actor = None → discard actor s = s).
Proof.
  split; [|split; [apply discard_discard | apply discard_absent]].
  intros u m Hin.
  destruct (entry_trace ep self actor r w) as (l1 & l2 & Hl & Ht).
  rewrite (new_calls_extends _ _ _ _ Ht) in Hin.
  apply list_elem_of_fmap in Hin as (u' & [= -> ->] & Hu).
  assert (u' ∈ recipients actor r) as Hr.
  { rewrite Hl. apply elem_of_app. by left. }
  eapply discard_not_elem; [exact Hr|].
  intros k v Hk. by apply get_users_review_request_lookup in Hk as [_ ?].
Qed.

(** C10: within one invocation of an entry point every dispatch call gets
    the same text, the one formatted from the actor and the request before
    the loop, and every message sent on a stream carries that text. *)
Theorem same_text_for_every_recipient (ep : EntryPoint) (self : XmppClient)
    (actor : User) (r : ReviewRequest) (w : World) :
  (∀ u m, (u, m) ∈ new_calls w (final (entry ep self actor r w)) →
          m = entry_text ep actor r)
  ∧ (∀ m, Sent m ∈ new_wire w (final (entry ep self actor r w)) →
          body m = entry_text ep actor r).
Proof.
  destruct (entry_trace ep self actor r w) as (l1 & l2 & Hl & Ht). split.
  - intros u m Hin. rewrite (new_calls_extends _ _ _ _ Ht) in Hin.
    by apply list_elem_of_fmap in Hin as (u' & [= -> ->] & Hu).
  - intros m. by apply (new_wire_extends l1).
Qed.

(** C6, as amended: a failure inside the [try] block of a dispatch call does
    not stop the fan-out.  With the five connection parameters present and
    decodable, a text the ASCII codec accepts and sessions that end,
    whatever the address parser and the sessions raise, the loop
    [for u in users] calls the dispatcher for every user it is given, in
    turn, and ends; so every entry point that reaches its loop calls the
    dispatcher once for every member of the audience but the actor. *)
Theorem failures_do_not_stop_fan_out (self : XmppClient)
    (host prt tls : PyVal) (jid pass : string) :
  configured self host prt tls jid pass →
  sessions_end →
  (∀ (l : list User) (msg : string) (w : World),
     is_ascii msg = true →
     ∃ w', for_each l (fun u => send_xmpp_message self u msg) w = Return w' tt
           ∧ new_calls w w' = (fun u => (u, msg)) <$> l)
  ∧ (∀ (ep : EntryPoint) (actor : User) (r : ReviewRequest) (w : World),
       is_ascii (entry_text ep actor r) = true →
       ep ≠ ReplyPosted → gate ep r = true →
       ∃ w', entry ep self actor r w = Return w' tt
             ∧ new_calls w w'
               ≡ₚ (fun u => (u, entry_text ep actor r))
                    <$> recipients actor r).
Proof.
  intros Hc He. split.
  - intros l msg w Ha.
    destruct (fan_out_returns self msg l _ _ _ _ _ w Hc Ha He)
      as (w' & Hw' & Ht).
    exists w'. split; [done|]. by apply new_calls_extends in Ht.
  - intros ep actor r w Ha Hep Hg.
    destruct (entry_dispatches_all ep self actor r _ _ _ _ _ w Hc He Ha Hep
                Hg) as (w' & Hw' & Ht).
    exists w'. split; [done|]. by rewrite (new_calls_extends _ _ _ _ Ht).
Qed.

(** ** One authorized session *)

Lemma loop_others (h : XmppHandler.t) (evs rest : list Event) (fin : Ending)
    (queued : nat) (w : World) :
  forallb is_other evs = true →
  ∃ w1, loop [h] (evs ++ rest) fin queued w = loop [h] rest fin queued w1
        ∧ calls w1 = calls w ∧ clients w1 = clients w ∧ wire w1 = wire w
        ∧ log w1 = log w ++ (LogInfo <$> evs).
Proof.
  revert w. induction evs as [|ev evs IH]; intros w Hall.
  - exists w. by rewrite app_nil_r.
  - simpl in Hall. apply andb_true_iff in Hall as [Hev Hall].
    destruct ev as [| |name]; [done..|].
    destruct (IH (final (logging (LogInfo (OtherEvent name)) w)) Hall)
      as (w1 & Hloop & Hc & Hcl & Hw & Hl).
    exists w1. split; [exact Hloop|]. simpl in *.
    by rewrite Hl, <- app_assoc.
Qed.

(** Events that are no authorization are logged and nothing else. *)
Lemma drain_without_authorization (h : XmppHandler.t) (evs : list Event)
    (w : World) :
  has_authorized evs = false →
  ∃ w1, drain [h] evs w = Return w1 tt
        ∧ calls w1 = calls w ∧ clients w1 = clients w ∧ wire w1 = wire w
        ∧ log w1 = log w ++ (LogInfo <$> evs).
Proof.
  revert w. induction evs as [|ev evs IH]; intros w Hno.
  - exists w. by rewrite app_nil_r.
  - simpl in Hno. apply orb_false_iff in Hno as [Hev Hno].
    destruct (IH (final (logging (LogInfo ev) w)) Hno)
      as (w1 & Hdrain & Hc & Hcl & Hw & Hl).
    exists w1. split.
    + destruct ev as [| |name]; [done|exact Hdrain..].
    + simpl in *. by rewrite Hl, <- app_assoc.
Qed.

(** C8: in a session that reaches authorization, one message is built, for
    the address made of the receiver's local part and the domain of the
    sender address and with the text given; it is sent on the stream and
    the disconnect request follows at once.  The disconnected event ends
    the main loop: the events already queued behind it are still handled,
    then the call returns, whatever the library had in store after them. *)
Theorem authorized_session_sends_one_message (self : XmppClient) (u : User)
    (msg : string) (host prt tls : PyVal) (jid pass : string)
    (sj tj : JID) (pre mid post : list Event) (stream : Stream)
    (fin : Ending) (queued : nat) (w : World) :
  configured self host prt tls jid pass →
  is_ascii msg = true →
  JID_new jid None = inr sj →
  JID_new (username u) (Some (jid_domain sj)) = inr tj →
  network (length (clients w)) sj
          {| password := pass; starttls := tls; tls_verify_peer := false;
             server := host; port := prt |}
  = {| connect_raises := None;
       events := pre ++ AuthorizedEvent stream :: mid
                     ++ DisconnectedEvent :: post;
       ending := fin;
       queued_behind := queued |} →
  forallb is_other pre = true → forallb is_other mid = true →
  send_raises stream = None → disconnect_raises stream = None →
  ∃ w' later,
    send_xmpp_message self u msg w = Return w' tt
    ∧ wire w'
      = wire w ++ [Sent {| to_jid := tj; body := msg |}; DisconnectRequested]
               ++ later
    ∧ (has_authorized (take queued post) = false →
       later = []
       ∧ log w'
         = log w ++ (LogInfo <$> pre ++ AuthorizedEvent stream :: mid
                                  ++ DisconnectedEvent :: take queued post)).
Proof.
  intros [Hh Hp (vj & Hj & Hdj) (vp & Hpw & Hdp) Ht] Hascii Hsj Htj Hnet
    Hpre Hmid Hsend Hdisc.
  unfold send_xmpp_message, getitem. rewrite Hh, Hp, Hj, Hpw, Ht.
  unfold bind, record_call, ret, lift. simpl.
  rewrite Hdj. simpl. rewrite Hdp. simpl. rewrite Hascii. simpl.
  unfold try_except, deliver, bind, lift. rewrite Hsj. simpl.
  rewrite Htj. simpl.
  unfold Client_new, connect, run, bind, record_client, ret. simpl.
  rewrite Hnet. simpl.
  match goal with
  | |- context [loop ?hs _ fin queued ?w0] =>
      destruct (loop_others {| XmppHandler.target_jid := tj;
                               XmppHandler.message := msg |}
                  pre (AuthorizedEvent stream
                         :: mid ++ DisconnectedEvent :: post) fin queued w0
                  Hpre)
        as (w1 & -> & _ & _ & Hw1 & Hl1)
  end.
  simpl in Hw1, Hl1.
  cbn [loop dispatch]. unfold handle_event, handle_all, handle_authorized,
    stream_send, stream_disconnect, bind, logging, emit, ret.
  rewrite Hsend, Hdisc. cbn [quit_or].
  match goal with
  | |- context [loop ?hs _ fin queued ?w0] =>
      destruct (loop_others {| XmppHandler.target_jid := tj;
                               XmppHandler.message := msg |}
                  mid (DisconnectedEvent :: post) fin queued w0 Hmid)
        as (w2 & -> & _ & _ & Hw2 & Hl2)
  end.
  simpl in Hw2, Hl2.
  cbn [loop dispatch]. unfold handle_event, handle_all, handle_disconnected,
    bind, logging, ret. cbn [quit_or].
  assert (wire w2 = wire w ++ [Sent {| to_jid := tj; body := msg |};
                               DisconnectRequested]) as Hwire.
  { rewrite Hw2, Hw1. by rewrite <- app_assoc. }
  assert (log w2 ++ [LogInfo DisconnectedEvent]
          = log w ++ (LogInfo <$> pre ++ AuthorizedEvent stream :: mid
                                   ++ [DisconnectedEvent])) as Hlog.
  { rewrite Hl2, Hl1. rewrite !fmap_app, !fmap_cons, fmap_app.
    rewrite <- !app_assoc. reflexivity. }
  match goal with
  | |- context [drain ?hs ?evs ?w0] =>
      pose proof (drain_comes_back hs evs w0) as Hback;
      pose proof (quiet_drain msg hs evs
                    ltac:(by repeat constructor) w0)
        as [_ (later & Hlater & _)];
      pose proof (drain_without_authorization
                    {| XmppHandler.target_jid := tj;
                       XmppHandler.message := msg |} evs w0) as Hquiet;
      destruct (drain hs evs w0) as [w3 []|w3 e|w3] eqn:Hdrain
  end; simpl in Hlater, Hquiet; [| |done].
  - exists w3, later. split; [done|].
    split; [by rewrite Hlater, Hwire, <- app_assoc|].
    intros Hno. destruct (Hquiet Hno) as (w4 & [= <-] & _ & _ & Hw4 & Hl4).
    simpl in Hw4, Hl4. split.
    + apply (app_inv_head (wire w2)). by rewrite app_nil_r, <- Hlater.
    + rewrite Hl4, Hlog, !fmap_app. simpl. rewrite !fmap_app. simpl.
      rewrite <- !app_assoc. simpl. rewrite <- !app_assoc. reflexivity.
  - eexists _, later. split; [reflexivity|]. simpl.
    split; [by rewrite Hlater, Hwire, <- app_assoc|].
    intros Hno. by destruct (Hquiet Hno) as (w4 & [=] & _).
Qed.

End Pipeline.

(** ** The statements on the example data *)

Lemma example_configured :
  @configured example_env example_client (PyUnicode "xmpp.example.org")
    (PyInt 5222) (PyBool true) "rb@example.org" "secret".
Proof.
  split; try reflexivity.
  - exists (PyUnicode "rb@example.org"). by split.
  - exists (PyUnicode "secret"). by split.
Defined.

Lemma example_sessions_end : @sessions_end example_env.
Proof. intros [|n] jid st; reflexivity. Defined.

Lemma get_users_review_request_union_witness :
  (∀ u, ¬ in_source quiet_request u)
  ∧ get_users_review_request quiet_request = ∅.
Proof.
  assert (∀ u, ¬ in_source quiet_request u) as Hnone.
  { intros u [H|[[-> H]|[[H _]|[(g & H & _)|(p & H & _)]]]];
      simpl in H; solve [by apply elem_of_nil in H | done]. }
  split; [exact Hnone|].
  exact (proj2 (proj2 (proj2 (get_users_review_request_union quiet_request)))
           Hnone).
Defined.

(** C2, as stated, fails: with [xmpp_host] missing from the settings, publish
    on a request with a recipient raises [KeyError] to its caller. *)
Lemma missing_parameter_raises :
  (∃ w', @entry example_env Publish broken_client alice example_request world0
         = Raise w' (KeyError "xmpp_host"))
  ∧ ¬ (∃ w', @entry example_env Publish broken_client alice example_request
               world0 = Return w' tt).
Proof.
  split.
  - eexists. vm_compute. reflexivity.
  - intros [w' H]. vm_compute in H. discriminate H.
Qed.

(** The text goes through the ASCII codec before the [try] block, and a
    main loop that never ends is not an exception: both conditions of the
    amended C2 are needed. *)
Lemma non_ascii_text_raises :
  @entry example_env Publish example_client eric example_request world0
  = Raise (final (@entry example_env Publish example_client eric
                    example_request world0))
          UnicodeEncodeError.
Proof. vm_compute. reflexivity. Qed.

Lemma silent_peer_blocks :
  ∃ w', @entry silent_env Publish example_client alice example_request world0
        = Block w'.
Proof. eexists. vm_compute. reflexivity. Qed.

Lemma entry_returns_normally_witness :
  ∃ w', @entry example_env Publish example_client carol example_request world0
        = Return w' tt.
Proof.
  apply (@entry_returns_normally example_env Publish example_client carol
           example_request _ _ _ _ _ world0 example_configured
           example_sessions_end).
  - vm_compute. reflexivity.
  - discriminate.
Defined.

(** C3: the docstring of [get_users_review_request] promises a set of active
    users, and four of its five sources are filtered on the flag; the
    participants are not, so a deactivated participant is in the audience
    and is dispatched to. *)
Theorem inactive_participant_in_audience :
  is_active carol = false
  ∧ get_users_review_request stale_request !! pk carol = Some carol
  ∧ carol ∈ recipients alice stale_request.
Proof.
  split; [reflexivity|]. split; [vm_compute; reflexivity|].
  apply elem_of_set_iter. exists (pk carol). vm_compute. reflexivity.
Qed.

(** C7: the reply template escapes the percent sign of its fifth conversion:
    formatting converts five of the six arguments and raises, so a reply on
    a public request yields no text and no dispatch at all. *)
Theorem reply_template_raises :
  py_format replied_template
    (message_args alice example_request "https://reviews.example.org")
  = inl (TypeError "not all arguments converted during string formatting")
  ∧ @entry example_env ReplyPosted example_client alice example_request
      world0
    = Raise world0
        (TypeError "not all arguments converted during string formatting").
Proof. split; vm_compute; reflexivity. Qed.

Lemma gates_suppress_dispatch_witness :
  (public quiet_request = false
   ∧ @send_review_request_reopened example_env example_client alice
       quiet_request world0 = Return world0 tt)
  ∧ (status quiet_request = "D"
     ∧ @send_review_request_closed example_env example_client alice
         quiet_request world0 = Return world0 tt)
  ∧ (status example_request ≠ "D"
     ∧ @send_review_request_closed example_env example_client alice
         example_request world0
       = @send_xmpp_message example_env example_client bob
           (@entry_text example_env Close alice example_request) world0).
Proof.
  pose proof (@gates_suppress_dispatch example_env example_client alice
                quiet_request world0) as (Hpublic & Hclosed & _).
  pose proof (@gates_suppress_dispatch example_env example_client alice
                example_request world0) as (_ & _ & Hopen).
  split; [|split]; (split; [done|]).
  - apply Hpublic. reflexivity.
  - apply Hclosed. reflexivity.
  - rewrite Hopen by done. vm_compute. reflexivity.
Defined.

Lemma actor_never_dispatched_witness :
  ((bob, @entry_text example_env Publish carol example_request)
     ∈ new_calls world0
         (final (@entry example_env Publish example_client carol
                   example_request world0))
   ∧ pk bob ≠ pk carol)
  ∧ (get_users_review_request example_request !! pk carol = None
     ∧ discard carol (get_users_review_request example_request)
       = get_users_review_request example_request).
Proof.
  pose proof (@actor_never_dispatched example_env Publish example_client
                carol example_request world0) as (Hcalls & _ & Habsent).
  assert ((bob, @entry_text example_env Publish carol example_request)
            ∈ new_calls world0
                (final (@entry example_env Publish example_client carol
                          example_request world0))) as Hbob.
  { vm_compute. apply list_elem_of_here. }
  assert (get_users_review_request example_request !! pk carol = None)
    as Hcarol.
  { vm_compute. reflexivity. }
  split; split; [exact Hbob | exact (Hcalls _ _ Hbob) | exact Hcarol
                | exact (Habsent _ Hcarol)].
Defined.

(** C6, as stated, fails: with [xmpp_host] missing, the dispatch call for
    one of the two recipients raises [KeyError], the loop ends there and
    the other recipient is never called. *)
Lemma failed_call_stops_fan_out :
  length (recipients carol example_request) = 2%nat
  ∧ ∃ w', @entry example_env Publish broken_client carol example_request
            world0 = Raise w' (KeyError "xmpp_host")
          ∧ length (new_calls world0 w') = 1%nat.
Proof.
  split; [vm_compute; reflexivity|].
  eexists. split; [vm_compute; reflexivity|]. vm_compute. reflexivity.
Qed.

(** One session is refused by the server; both recipients are called all
    the same. *)
Lemma failures_do_not_stop_fan_out_witness :
  LogError "boo" SASLAuthenticationFailed
    ∈ log (final (@entry example_env Publish example_client carol
                    example_request world0))
  ∧ ∃ w', @entry example_env Publish example_client carol example_request
            world0 = Return w' tt
          ∧ new_calls world0 w'
            ≡ₚ (fun u => (u, @entry_text example_env Publish carol
                               example_request))
                 <$> recipients carol example_request.
Proof.
  split.
  - vm_compute. apply list_elem_of_further, list_elem_of_here.
  - apply (proj2 (@failures_do_not_stop_fan_out example_env example_client
                    _ _ _ _ _ example_configured example_sessions_end)
             Publish carol example_request world0).
    + vm_compute. reflexivity.
    + discriminate.
    + reflexivity.
Defined.

Lemma open_configured :
  @configured open_env example_client (PyUnicode "xmpp.example.org")
    (PyInt 5222) (PyBool true) "rb@example.org" "secret".
Proof.
  split; try reflexivity.
  - exists (PyUnicode "rb@example.org"). by split.
  - exists (PyUnicode "secret"). by split.
Defined.

Lemma queued_configured :
  @configured queued_env example_client (PyUnicode "xmpp.example.org")
    (PyInt 5222) (PyBool true) "rb@example.org" "secret".
Proof.
  split; try reflexivity.
  - exists (PyUnicode "rb@example.org"). by split.
  - exists (PyUnicode "secret"). by split.
Defined.

Lemma authorized_session_sends_one_message_witness :
  ∃ w', @send_xmpp_message queued_env example_client bob "hello" world0
        = Return w' tt
        ∧ wire w'
          = [Sent {| to_jid := {| jid_local := Some "bob";
                                  jid_domain := "example.org";
                                  jid_resource := None |};
                     body := "hello" |};
             DisconnectRequested]
        ∧ log w'
          = [LogInfo (OtherEvent "ConnectedEvent");
             LogInfo (AuthorizedEvent good_stream);
             LogInfo DisconnectedEvent;
             LogInfo (OtherEvent "GotFeaturesEvent")].
Proof.
  destruct (@authorized_session_sends_one_message queued_env example_client
              bob "hello" _ _ _ _ _
              {| jid_local := Some "rb"; jid_domain := "example.org";
                 jid_resource := None |}
              {| jid_local := Some "bob"; jid_domain := "example.org";
                 jid_resource := None |}
              [OtherEvent "ConnectedEvent"] []
              [OtherEvent "GotFeaturesEvent";
               OtherEvent "StreamRestartedEvent"]
              good_stream LoopBlocks 1%nat world0 queued_configured
              eq_refl eq_refl eq_refl eq_refl eq_refl eq_refl eq_refl eq_refl)
    as (w' & later & Hret & Hwire & Hrest).
  destruct (Hrest eq_refl) as [-> Hlog].
  exists w'. split; [exact Hret|]. split; [exact Hwire | exact Hlog].
Defined.

Lemma team_request_is_permuted :
  request_permuted team_request team_request_permuted.
Proof.
  split; simpl.
  - reflexivity.
  - apply Permutation_swap.
  - apply Permutation_swap.
  - exists [ {| Group.users := [carol] |}; {| Group.users := [bob; dave] |} ].
    split; [apply Permutation_swap|].
    constructor; [unfold group_permuted; reflexivity|].
    constructor; [|constructor].
    apply Permutation_swap.
  - apply Permutation_swap.
Defined.

Lemma resolution_order_independent_witness :
  dom (get_users_review_request team_request)
  = dom (get_users_review_request team_request_permuted).
Proof.
  apply (proj1 (resolution_order_independent team_request
                  team_request_permuted team_request_is_permuted)).
Defined.

Lemma same_text_for_every_recipient_witness :
  (alice,
   notification_text "published review request" carol example_request
     "https://reviews.example.org")
    ∈ new_calls world0
        (final (@entry example_env Publish example_client carol
                  example_request world0))
  ∧ notification_text "published review request" carol example_request
      "https://reviews.example.org"
    = @entry_text example_env Publish carol example_request.
Proof.
  pose proof (@same_text_for_every_recipient example_env Publish
                example_client carol example_request world0) as [Hcalls _].
  assert ((alice,
           notification_text "published review request" carol
             example_request "https://reviews.example.org")
            ∈ new_calls world0
                (final (@entry example_env Publish example_client carol
                          example_request world0))) as Halice.
  { vm_compute. apply list_elem_of_further, list_elem_of_here. }
  split; [exact Halice | exact (Hcalls _ _ Halice)].
Defined.

(** * Further properties of the module *)

(** ** The resolver *)

Lemma fmap_pk_snd (l : list (Z * User)) :
  (∀ k v, (k, v) ∈ l → pk v = k) → pk <$> l.*2 = l.*1.
Proof.
  induction l as [|[k v] l IH]; intros H; [done|]. simpl. f_equal.
  - apply H, list_elem_of_here.
  - apply IH. intros k' v' Hin. by apply H, list_elem_of_further.
Qed.

Lemma keys_of_set_iter (s : UserSet) :
  (∀ k v, s !! k = Some v → pk v = k) →
  pk <$> set_iter s = (map_to_list s).*1.
Proof.
  intros Hwf. unfold set_iter. apply fmap_pk_snd.
  intros k v Hin. by apply Hwf, elem_of_map_to_list.
Qed.

Lemma discard_keyed (actor : User) (r : ReviewRequest) k v :
  discard actor (get_users_review_request r) !! k = Some v → pk v = k.
Proof.
  unfold discard. intros [_ H]%lookup_delete_Some.
  by apply get_users_review_request_lookup in H as [_ ?].
Qed.

(** X1: an inactive user can enter the audience through the participants
    only; when the participants handed over are all active, so is every
    user of the audience. *)
Theorem audience_active_when_participants_active (r : ReviewRequest) :
  (∀ u, u ∈ set_iter (get_users_review_request r) →
        is_active u = true ∨ u ∈ get_participants r)
  ∧ ((∀ u, u ∈ get_participants r → is_active u = true) →
     ∀ u, u ∈ set_iter (get_users_review_request r) → is_active u = true).
Proof.
  assert (∀ u, u ∈ set_iter (get_users_review_request r) →
               is_active u = true ∨ u ∈ get_participants r) as Hall.
  { intros u [k Hk]%elem_of_set_iter.
    apply get_users_review_request_lookup in Hk as [Hu _].
    destruct Hu as [H|[[_ H]|[[_ H]|[(g & _ & _ & H)|(p & _ & _ & H)]]]];
      [by right|left; by apply Is_true_true..]. }
  split; [exact Hall|].
  intros Hp u Hu. destruct (Hall u Hu) as [H|H]; [done | by apply Hp].
Qed.

(** X2: no user is dispatched to twice for one event: the users an entry
    point iterates over have pairwise different keys. *)
Theorem recipients_distinct (actor : User) (r : ReviewRequest) :
  NoDup (pk <$> recipients actor r).
Proof.
  unfold recipients. rewrite keys_of_set_iter by apply discard_keyed.
  apply NoDup_fst_map_to_list.
Qed.

(** X3: the users dispatched to are the audience without the actor: the
    union of the five sources, less the acting user. *)
Theorem recipients_are_audience_without_actor (actor : User)
    (r : ReviewRequest) :
  list_to_set (pk <$> recipients actor r)
  = audience_spec r ∖ {[ pk actor ]}.
Proof.
  unfold recipients. rewrite keys_of_set_iter by apply discard_keyed.
  rewrite <- (leibniz_equiv _ _ (dom_alt _)). unfold discard.
  by rewrite dom_delete_L, dom_get_users_review_request.
Qed.

Lemma audience_active_when_participants_active_witness :
  (∀ u, u ∈ get_participants team_request → is_active u = true)
  ∧ ∀ u, u ∈ set_iter (get_users_review_request team_request) →
         is_active u = true.
Proof.
  assert (∀ u, u ∈ get_participants team_request → is_active u = true)
    as Hp.
  { intros u Hu. simpl in Hu.
    repeat (apply elem_of_cons in Hu as [->|Hu]; [reflexivity|]).
    by apply elem_of_nil in Hu. }
  split; [exact Hp|].
  exact (proj2 (audience_active_when_participants_active team_request) Hp).
Defined.

(** ** What is read before the [try] block *)

Section Preamble.
Context `{E : Environment}.

Lemma send_xmpp_message_first_missing (self : XmppClient) (u : User)
    (msg : string) (k : string) (w : World) :
  first_missing (Extension.settings (extension self)) = Some k →
  send_xmpp_message self u msg w
  = Raise (final (record_call u msg w)) (KeyError k).
Proof.
  unfold first_missing, connection_keys, send_xmpp_message, getitem, bind,
    record_call. simpl.
  destruct (Extension.settings (extension self) !! "xmpp_host");
    [|by intros [= <-]].
  destruct (Extension.settings (extension self) !! "xmpp_port");
    [|by intros [= <-]].
  destruct (Extension.settings (extension self) !! "xmpp_sender_jid");
    [|by intros [= <-]].
  destruct (Extension.settings (extension self) !! "xmpp_sender_password");
    [|by intros [= <-]].
  destruct (Extension.settings (extension self) !! "xmpp_use_tls");
    [done | by intros [= <-]].
Qed.

(** X4: with a connection parameter missing, a dispatch call raises the
    [KeyError] of the first one missing in reading order, before anything
    else happens: no session is constructed, nothing is sent and nothing is
    logged. *)
Theorem missing_setting_raises_before_any_session (self : XmppClient)
    (u : User) (msg : string) (k : string) (w : World) :
  first_missing (Extension.settings (extension self)) = Some k →
  ∃ w', send_xmpp_message self u msg w = Raise w' (KeyError k)
        ∧ calls w' = calls w ++ [(u, msg)]
        ∧ clients w' = clients w ∧ wire w' = wire w ∧ log w' = log w.
Proof.
  intros Hk. exists (final (record_call u msg w)).
  by rewrite (send_xmpp_message_first_missing _ _ _ _ _ Hk).
Qed.

(** X5: with a connection parameter missing, an entry point that has
    someone to notify stops at its first recipient: the [KeyError] reaches
    the caller and the other recipients are not tried. *)
Theorem missing_setting_stops_at_first_recipient (ep : EntryPoint)
    (self : XmppClient) (actor : User) (r : ReviewRequest) (k : string)
    (u : User) (rest : list User) (w : World) :
  first_missing (Extension.settings (extension self)) = Some k →
  ep ≠ ReplyPosted → gate ep r = true →
  recipients actor r = u :: rest →
  ∃ w', entry ep self actor r w = Raise w' (KeyError k)
        ∧ new_calls w w' = [(u, entry_text ep actor r)].
Proof.
  intros Hk Hep Hg Hr. rewrite entry_dispatches, Hr by done. simpl.
  unfold bind. rewrite (send_xmpp_message_first_missing _ _ _ _ _ Hk).
  eexists. split; [reflexivity|]. unfold new_calls. simpl.
  apply drop_app_length.
Qed.

(** X6: the settings are read per recipient, so an entry point with nobody
    to notify returns at once and leaves no trace, whatever the
    configuration holds or lacks. *)
Theorem nobody_to_notify_returns (ep : EntryPoint) (self : XmppClient)
    (actor : User) (r : ReviewRequest) (w : World) :
  ep ≠ ReplyPosted → recipients actor r = [] →
  entry ep self actor r w = Return w tt.
Proof.
  intros Hep Hr. destruct (gate ep r) eqn:Hg.
  - by rewrite entry_dispatches, Hr by done.
  - by rewrite entry_suppressed by done.
Qed.

Lemma send_xmpp_message_cases (self : XmppClient) (u : User) (msg : string)
    (host prt tls vj vp : PyVal) (w : World) :
  Extension.settings (extension self) !! "xmpp_host" = Some host →
  Extension.settings (extension self) !! "xmpp_port" = Some prt →
  Extension.settings (extension self) !! "xmpp_sender_jid" = Some vj →
  Extension.settings (extension self) !! "xmpp_sender_password" = Some vp →
  Extension.settings (extension self) !! "xmpp_use_tls" = Some tls →
  send_xmpp_message self u msg w
  = match decode_utf8 vj with
    | inl e => Raise (final (record_call u msg w)) e
    | inr jid =>
        match decode_utf8 vp with
        | inl e => Raise (final (record_call u msg w)) e
        | inr pass =>
            if is_ascii msg
            then try_except (deliver u msg host prt tls jid pass)
                   (fun e => logging (LogError "boo" e))
                   (final (record_call u msg w))
            else Raise (final (record_call u msg w)) UnicodeEncodeError
        end
    end.
Proof.
  intros Hh Hp Hj Hpw Ht.
  unfold send_xmpp_message, getitem. rewrite Hh, Hp, Hj, Hpw, Ht.
  unfold bind, record_call, ret, lift. simpl.
  destruct (decode_utf8 vj); [done|]. simpl.
  destruct (decode_utf8 vp); [done|]. simpl.
  by destruct (is_ascii msg).
Qed.

(** X7: the decoding that precedes the [try] block is not covered by it.  A
    sender address or a password that does not decode, and a message text
    with a character outside ASCII, raise to the caller of the dispatch call
    with no session constructed and nothing logged. *)
Theorem undecodable_input_raises_before_any_session (self : XmppClient)
    (u : User) (msg : string) (host prt tls vj vp : PyVal) (w : World) :
  Extension.settings (extension self) !! "xmpp_host" = Some host →
  Extension.settings (extension self) !! "xmpp_port" = Some prt →
  Extension.settings (extension self) !! "xmpp_sender_jid" = Some vj →
  Extension.settings (extension self) !! "xmpp_sender_password" = Some vp →
  Extension.settings (extension self) !! "xmpp_use_tls" = Some tls →
  (∀ e, decode_utf8 vj = inl e →
        send_xmpp_message self u msg w
        = Raise (final (record_call u msg w)) e)
  ∧ (∀ jid e, decode_utf8 vj = inr jid → decode_utf8 vp = inl e →
              send_xmpp_message self u msg w
              = Raise (final (record_call u msg w)) e)
  ∧ (∀ jid pass, decode_utf8 vj = inr jid → decode_utf8 vp = inr pass →
                 is_ascii msg = false →
                 send_xmpp_message self u msg w
                 = Raise (final (record_call u msg w)) UnicodeEncodeError).
Proof.
  intros Hh Hp Hj Hpw Ht.
  rewrite (send_xmpp_message_cases _ _ _ _ _ _ _ _ _ Hh Hp Hj Hpw Ht).
  split; [|split].
  - by intros e ->.
  - by intros jid e -> ->.
  - by intros jid pass -> -> ->.
Qed.

(** X8: on every public request the reply entry point raises the
    [TypeError] of its template before it resolves any audience: it calls
    the dispatcher for nobody and leaves no trace. *)
Theorem reply_on_public_request_raises (self : XmppClient) (user : User)
    (reply : Reply.t) (w : World) :
  public (Review.review_request (Reply.base_reply_to reply)) = true →
  send_reply_published self user reply w
  = Raise w (TypeError not_all_converted).
Proof.
  intros H. unfold send_reply_published.
  cbn [Review.review_request Reply.base_reply_to].
  rewrite H, get_base_url_ok, bind_lift_inr, replied_raises. reflexivity.
Qed.

(** X9: on a public request publish, reopen and review_posted format their
    text without fail and are the fan-out of that text over the audience
    less the actor; the status of the request plays no part. *)
Theorem public_request_is_fanned_out (self : XmppClient) (user : User)
    (r : ReviewRequest) (w : World) :
  public r = true →
  (∀ changedesc,
     send_review_request_published self user r changedesc w
     = for_each (set_iter (discard user (get_users_review_request r)))
         (fun u => send_xmpp_message self u
            (notification_text "published review request" user r base_url))
         w)
  ∧ send_review_request_reopened self user r w
    = for_each (set_iter (discard user (get_users_review_request r)))
        (fun u => send_xmpp_message self u
           (notification_text "reopened review request" user r base_url)) w
  ∧ (∀ review, Review.review_request review = r →
       send_review_published self user review w
       = for_each (set_iter (discard user (get_users_review_request r)))
           (fun u => send_xmpp_message self u
              (notification_text "reviewed request" user r base_url)) w).
Proof.
  intros H. split; [|split].
  - intros cd. unfold send_review_request_published.
    by rewrite H, get_base_url_ok, bind_lift_inr, published_text.
  - unfold send_review_request_reopened.
    by rewrite H, get_base_url_ok, bind_lift_inr, reopened_text.
  - intros review <-. unfold send_review_published.
    cbn [Review.review_request].
    by rewrite H, get_base_url_ok, bind_lift_inr, reviewed_text.
Qed.

End Preamble.

(** ** Sessions *)

Lemma grows_same (PW : StreamAction -> Prop) (PC : Client -> Prop)
    (w w' : World) :
  wire w' = wire w → clients w' = clients w → grows PW PC w w'.
Proof.
  intros Hw Hc. split; exists []; by rewrite app_nil_r.
Qed.

Lemma grows_refl (PW : StreamAction -> Prop) (PC : Client -> Prop)
    (w : World) : grows PW PC w w.
Proof. by apply grows_same. Qed.

Lemma grows_trans (PW : StreamAction -> Prop) (PC : Client -> Prop)
    (w1 w2 w3 : World) :
  grows PW PC w1 w2 → grows PW PC w2 w3 → grows PW PC w1 w3.
Proof.
  intros [(nw1 & Hw1 & Hf1) (nc1 & Hc1 & Hg1)]
         [(nw2 & Hw2 & Hf2) (nc2 & Hc2 & Hg2)]. split.
  - exists (nw1 ++ nw2). split; [by rewrite Hw2, Hw1, app_assoc|].
    by apply Forall_app.
  - exists (nc1 ++ nc2). split; [by rewrite Hc2, Hc1, app_assoc|].
    by apply Forall_app.
Qed.

Section Growth.
Variable PW : StreamAction -> Prop.
Variable PC : Client -> Prop.

Lemma grows_ret {A} (a : A) : respects (grows PW PC) (ret a).
Proof. apply respects_ret, grows_refl. Qed.

Lemma grows_raise {A} (e : exn) : respects (grows PW PC) (@raise A e).
Proof. apply respects_raise, grows_refl. Qed.

Lemma grows_block {A} : respects (grows PW PC) (@block A).
Proof. apply respects_block, grows_refl. Qed.

Lemma grows_lift {A} (r : exn + A) : respects (grows PW PC) (lift r).
Proof. apply respects_lift, grows_refl. Qed.

Lemma grows_bind {A B} (m : M A) (k : A -> M B) :
  respects (grows PW PC) m → (∀ a, respects (grows PW PC) (k a)) →
  respects (grows PW PC) (bind m k).
Proof. apply respects_bind, grows_trans. Qed.

Lemma grows_bind_lift {A B} (r : exn + A) (k : A -> M B) :
  (∀ a, r = inr a → respects (grows PW PC) (k a)) →
  respects (grows PW PC) (bind (lift r) k).
Proof. apply respects_bind_lift, grows_refl. Qed.

Lemma grows_try_except {A} (m : M A) (h : exn -> M A) :
  respects (grows PW PC) m → (∀ e, respects (grows PW PC) (h e)) →
  respects (grows PW PC) (try_except m h).
Proof. apply respects_try_except, grows_trans. Qed.

Lemma grows_logging (r : LogRecord) : respects (grows PW PC) (logging r).
Proof. intros w. by apply grows_same. Qed.

Lemma grows_record_call (u : User) (msg : string) :
  respects (grows PW PC) (record_call u msg).
Proof. intros w. by apply grows_same. Qed.

Lemma grows_getitem (d : gmap string PyVal) (key : string) :
  respects (grows PW PC) (getitem d key).
Proof.
  unfold getitem. destruct (d !! key); [apply grows_ret | apply grows_raise].
Qed.

Lemma grows_emit (a : StreamAction) :
  PW a → respects (grows PW PC) (emit a).
Proof.
  intros Ha w. split.
  - exists [a]. split; [done|]. by constructor.
  - exists []. by rewrite app_nil_r.
Qed.

Lemma grows_connect (c : Client) : respects (grows PW PC) (connect c).
Proof.
  unfold connect.
  destruct (connect_raises _); [apply grows_raise | apply grows_ret].
Qed.

Lemma grows_handle_authorized (h : XmppHandler.t) (stream : Stream) :
  PW (Sent {| to_jid := XmppHandler.target_jid h;
              body := XmppHandler.message h |}) →
  PW DisconnectRequested →
  respects (grows PW PC) (handle_authorized h stream).
Proof.
  intros Hs Hd. unfold handle_authorized, stream_send, stream_disconnect.
  apply grows_bind; [|intros _].
  { destruct (send_raises stream); [apply grows_raise | by apply grows_emit]. }
  apply grows_bind; [|intros _; apply grows_ret].
  destruct (disconnect_raises stream);
    [apply grows_raise | by apply grows_emit].
Qed.

(** An event that is not an authorization puts nothing on a stream. *)
Lemma grows_handle_event (h : XmppHandler.t) (ev : Event) :
  (has_authorized [ev] = true →
   PW (Sent {| to_jid := XmppHandler.target_jid h;
               body := XmppHandler.message h |})
   ∧ PW DisconnectRequested) →
  respects (grows PW PC) (handle_event h ev).
Proof.
  intros Hh. unfold handle_event, handle_all, handle_disconnected.
  apply grows_bind.
  { apply grows_bind; [apply grows_logging | intros _; apply grows_ret]. }
  intros r1. apply grows_bind; [|intros r2; apply grows_ret].
  destruct ev as [stream| |name]; [|apply grows_ret..].
  destruct (Hh eq_refl) as [Hs Hd]. by apply grows_handle_authorized.
Qed.

Lemma grows_dispatch (h : XmppHandler.t) (ev : Event) :
  (has_authorized [ev] = true →
   PW (Sent {| to_jid := XmppHandler.target_jid h;
               body := XmppHandler.message h |})
   ∧ PW DisconnectRequested) →
  respects (grows PW PC) (dispatch [h] ev).
Proof.
  intros Hh. simpl.
  apply grows_bind; [by apply grows_handle_event | intros r].
  apply grows_bind; [apply grows_ret | intros rs; apply grows_ret].
Qed.

Lemma has_authorized_take (n : nat) (evs : list Event) :
  has_authorized (take n evs) = true → has_authorized evs = true.
Proof.
  revert n. induction evs as [|ev evs IH]; intros [|n]; simpl; try done.
  intros [H|H]%orb_true_iff; apply orb_true_iff; [by left | right].
  by eapply IH.
Qed.

Lemma grows_drain (h : XmppHandler.t) (evs : list Event) :
  (has_authorized evs = true →
   PW (Sent {| to_jid := XmppHandler.target_jid h;
               body := XmppHandler.message h |})
   ∧ PW DisconnectRequested) →
  respects (grows PW PC) (drain [h] evs).
Proof.
  induction evs as [|ev evs IH]; intros Hh; [apply grows_ret|].
  cbn [drain]. apply grows_bind.
  - apply grows_dispatch. intros Hev. apply Hh. simpl in *.
    apply orb_true_iff. left. by rewrite orb_false_r in Hev.
  - intros _. apply IH. intros Hevs. apply Hh. simpl.
    apply orb_true_iff. by right.
Qed.

Lemma grows_loop (h : XmppHandler.t) (evs : list Event) (fin : Ending)
    (queued : nat) :
  (has_authorized evs = true →
   PW (Sent {| to_jid := XmppHandler.target_jid h;
               body := XmppHandler.message h |})
   ∧ PW DisconnectRequested) →
  respects (grows PW PC) (loop [h] evs fin queued).
Proof.
  induction evs as [|ev evs IH]; intros Hh.
  - simpl. destruct fin; [apply grows_raise | apply grows_block].
  - cbn [loop]. apply grows_bind.
    + apply grows_dispatch. intros Hev. apply Hh. simpl in *.
      apply orb_true_iff. left. by rewrite orb_false_r in Hev.
    + intros [|].
      * apply grows_drain. intros Hq. apply Hh. simpl.
        apply orb_true_iff. right. by eapply has_authorized_take.
      * apply IH. intros Hevs. apply Hh. simpl.
        apply orb_true_iff. by right.
Qed.

Lemma grows_for_each_in {A} (l : list A) (body : A -> M unit) :
  (∀ x, x ∈ l → respects (grows PW PC) (body x)) →
  respects (grows PW PC) (for_each l body).
Proof.
  induction l as [|x l IH]; intros Hb; simpl; [apply grows_ret|].
  apply grows_bind; [apply Hb, list_elem_of_here|intros _].
  apply IH. intros y Hy. by apply Hb, list_elem_of_further.
Qed.

End Growth.

Section Sessions.
Context `{E : Environment}.

Lemma grows_Client_new (PW : StreamAction -> Prop) (PC : Client -> Prop)
    (jid : JID) (hs : list XmppHandler.t) (st : XMPPSettings) :
  (∀ sc, PC {| client_jid := jid; client_handlers := hs;
               client_settings := st; client_scenario := sc |}) →
  respects (grows PW PC) (Client_new jid hs st).
Proof.
  intros Hc w. split.
  - exists []. by rewrite app_nil_r.
  - eexists [_]. split; [reflexivity|]. constructor; [apply Hc | constructor].
Qed.

Lemma grows_deliver (PW : StreamAction -> Prop) (PC : Client -> Prop)
    (u : User) (msg : string) (host prt tls : PyVal) (jid pass : string) :
  (∀ sj tj sc,
     JID_new jid None = inr sj →
     JID_new (username u) (Some (jid_domain sj)) = inr tj →
     PC {| client_jid := sj;
           client_handlers := [{| XmppHandler.target_jid := tj;
                                  XmppHandler.message := msg |}];
           client_settings :=
             {| password := pass; starttls := tls; tls_verify_peer := false;
                server := host; port := prt |};
           client_scenario := sc |}) →
  (∀ sj tj n,
     JID_new jid None = inr sj →
     JID_new (username u) (Some (jid_domain sj)) = inr tj →
     has_authorized
       (events (network n sj
                  {| password := pass; starttls := tls;
                     tls_verify_peer := false; server := host;
                     port := prt |})) = true →
     PW (Sent {| to_jid := tj; body := msg |}) ∧ PW DisconnectRequested) →
  respects (grows PW PC) (deliver u msg host prt tls jid pass).
Proof.
  intros HC HW. unfold deliver.
  apply grows_bind_lift. intros sj Hsj.
  apply grows_bind_lift. intros tj Htj.
  eapply (respects_bind_post _
            (fun c => client_handlers c = [_]
                      ∧ ∃ n, client_scenario c = network n sj _)).
  - apply grows_trans.
  - apply grows_Client_new. intros sc. by apply HC.
  - intros w w' c [Hh Hs]%Client_new_handlers. split; [done|]. by eexists.
  - intros c [Hh [n Hs]]. apply grows_bind; [apply grows_connect|intros _].
    unfold run. rewrite Hh, Hs. apply grows_loop. simpl. by apply HW.
Qed.

Lemma grows_send_xmpp_message (PW : StreamAction -> Prop)
    (PC : Client -> Prop) (self : XmppClient) (u : User) (msg : string) :
  (∀ host prt tls jid pass,
     respects (grows PW PC) (deliver u msg host prt tls jid pass)) →
  respects (grows PW PC) (send_xmpp_message self u msg).
Proof.
  intros Hd. unfold send_xmpp_message.
  apply grows_bind; [apply grows_record_call | intros _].
  do 5 (apply grows_bind; [apply grows_getitem | intros ?]).
  do 2 (apply grows_bind_lift; intros ? _).
  apply grows_bind_lift. intros message [-> _]%decode_unicode.
  apply grows_try_except; [apply Hd | intros e; apply grows_logging].
Qed.

Lemma grows_entry (PW : StreamAction -> Prop) (PC : Client -> Prop)
    (ep : EntryPoint) (self : XmppClient) (actor : User) (r : ReviewRequest) :
  (∀ u, u ∈ recipients actor r →
        respects (grows PW PC)
          (send_xmpp_message self u (entry_text ep actor r))) →
  respects (grows PW PC) (entry ep self actor r).
Proof.
  intros Hs. destruct (gate ep r) eqn:Hg.
  - destruct (decide (ep = ReplyPosted)) as [->|Hep].
    + rewrite entry_reply_raises by done. apply grows_raise.
    + rewrite entry_dispatches by done. by apply grows_for_each_in.
  - rewrite entry_suppressed by done. apply grows_ret.
Qed.

Lemma new_wire_grows (PW : StreamAction -> Prop) (PC : Client -> Prop)
    (w w' : World) :
  grows PW PC w w' → Forall PW (new_wire w w').
Proof.
  intros [(nw & Hw & Hf) _]. unfold new_wire. by rewrite Hw, drop_app_length.
Qed.

Lemma new_clients_grows (PW : StreamAction -> Prop) (PC : Client -> Prop)
    (w w' : World) :
  grows PW PC w w' → Forall PC (new_clients w w').
Proof.
  intros [_ (nc & Hc & Hf)]. unfold new_clients.
  by rewrite Hc, drop_app_length.
Qed.

(** X10: a message goes out only in answer to an authorization: when no
    session reaches that event, an entry point puts nothing on any stream,
    whatever else happens in the sessions. *)
Theorem nothing_sent_without_authorization (ep : EntryPoint)
    (self : XmppClient) (actor : User) (r : ReviewRequest) (w : World) :
  (∀ n jid st, has_authorized (events (network n jid st)) = false) →
  wire (final (entry ep self actor r w)) = wire w.
Proof.
  intros Hnet.
  assert (grows (fun _ => False) (fun _ => True) w
            (final (entry ep self actor r w))) as [(nw & Hw & Hf) _].
  { apply grows_entry. intros u _. apply grows_send_xmpp_message.
    intros host prt tls jid pass. apply grows_deliver; [done|].
    intros sj tj n _ _ Ha. by rewrite Hnet in Ha. }
  destruct nw as [|a nw]; [by rewrite Hw, app_nil_r|].
  by apply Forall_cons in Hf as [[] _].
Qed.

Lemma entry_sessions (ep : EntryPoint) (self : XmppClient) (actor : User)
    (r : ReviewRequest) (host prt tls : PyVal) (jid pass : string)
    (w : World) :
  configured self host prt tls jid pass →
  grows (sent_to jid (entry_text ep actor r) (recipients actor r))
        (session_for host prt tls jid pass (entry_text ep actor r)
           (recipients actor r))
        w (final (entry ep self actor r w)).
Proof.
  intros [Hh Hp (vj & Hj & Hdj) (vp & Hpw & Hdp) Ht].
  apply grows_entry. intros u Hu w1.
  rewrite (send_xmpp_message_cases _ _ _ _ _ _ _ _ _ Hh Hp Hj Hpw Ht).
  rewrite Hdj, Hdp. destruct (is_ascii (entry_text ep actor r));
    [|apply grows_record_call].
  eapply grows_trans; [apply grows_record_call|].
  apply grows_try_except; [|intros e; apply grows_logging].
  apply grows_deliver.
  - intros sj tj sc Hsj Htj. split; [done|]. split; [done|].
    exists u, tj. split; [done|]. split; [by exists sj | done].
  - intros sj tj n Hsj Htj _. split.
    + intros m [= <-]. simpl. split; [done|]. exists u. split; [done|].
      by exists sj.
    + by intros m.
Qed.

(** X11: whatever an entry point sends carries its text and goes to the
    address made of the user name of one of its recipients and the domain
    of the configured sender address. *)
Theorem messages_go_to_recipients (ep : EntryPoint) (self : XmppClient)
    (actor : User) (r : ReviewRequest) (host prt tls : PyVal)
    (jid pass : string) (w : World) (m : Message) :
  configured self host prt tls jid pass →
  Sent m ∈ new_wire w (final (entry ep self actor r w)) →
  body m = entry_text ep actor r
  ∧ ∃ u, u ∈ recipients actor r ∧ address_of jid u (to_jid m).
Proof.
  intros Hc Hm.
  pose proof (new_wire_grows _ _ _ _ (entry_sessions ep self actor r _ _ _ _ _
                                        w Hc)) as Hf.
  rewrite Forall_forall in Hf. by apply (Hf _ Hm).
Qed.

(** X12: every session an entry point constructs is made from the
    configured host, port, password and TLS flag with peer verification
    switched off, connects as the configured sender, and has a single
    handler, for the text and the address of one recipient. *)
Theorem sessions_use_the_configuration (ep : EntryPoint) (self : XmppClient)
    (actor : User) (r : ReviewRequest) (host prt tls : PyVal)
    (jid pass : string) (w : World) (c : Client) :
  configured self host prt tls jid pass →
  c ∈ new_clients w (final (entry ep self actor r w)) →
  session_for host prt tls jid pass (entry_text ep actor r)
    (recipients actor r) c.
Proof.
  intros Hc Hin.
  pose proof (new_clients_grows _ _ _ _ (entry_sessions ep self actor r _ _ _
                                           _ _ w Hc)) as Hf.
  rewrite Forall_forall in Hf. by apply Hf.
Qed.

(** X13: an address that cannot be made, the sender's or the receiver's,
    costs the recipient the message and nothing more: the error is logged,
    no session is constructed, nothing is sent and the call returns. *)
Theorem malformed_address_is_logged (self : XmppClient) (u : User)
    (msg : string) (host prt tls : PyVal) (jid pass : string) (e : exn)
    (w : World) :
  configured self host prt tls jid pass → is_ascii msg = true →
  (JID_new jid None = inl e
   ∨ ∃ sj, JID_new jid None = inr sj
           ∧ JID_new (username u) (Some (jid_domain sj)) = inl e) →
  ∃ w', send_xmpp_message self u msg w = Return w' tt
        ∧ clients w' = clients w ∧ wire w' = wire w
        ∧ log w' = log w ++ [LogError "boo" e].
Proof.
  intros Hc Ha Hjid.
  rewrite (send_xmpp_message_configured _ _ _ _ _ _ _ _ _ Hc Ha).
  unfold try_except, deliver, bind, lift.
  destruct Hjid as [Hsj|(sj & Hsj & Htj)].
  - rewrite Hsj. simpl. by eexists.
  - rewrite Hsj. simpl. rewrite Htj. simpl. by eexists.
Qed.

(** X14: when [connect] raises, the main loop is not run: the session is
    constructed, no event is handled, nothing is sent, the error is logged
    and the call returns. *)
Theorem refused_connection_is_logged (self : XmppClient) (u : User)
    (msg : string) (host prt tls : PyVal) (jid pass : string) (sj tj : JID)
    (e : exn) (w : World) :
  configured self host prt tls jid pass → is_ascii msg = true →
  JID_new jid None = inr sj →
  JID_new (username u) (Some (jid_domain sj)) = inr tj →
  connect_raises
    (network (length (clients w)) sj
       {| password := pass; starttls := tls; tls_verify_peer := false;
          server := host; port := prt |}) = Some e →
  ∃ w', send_xmpp_message self u msg w = Return w' tt
        ∧ length (clients w') = S (length (clients w))
        ∧ wire w' = wire w
        ∧ log w' = log w ++ [LogError "boo" e].
Proof.
  intros Hc Ha Hsj Htj Hconn.
  rewrite (send_xmpp_message_configured _ _ _ _ _ _ _ _ _ Hc Ha).
  unfold try_except, deliver, bind, lift. rewrite Hsj. simpl.
  rewrite Htj. simpl.
  unfold Client_new, connect, bind, record_client, ret. simpl.
  rewrite Hconn. simpl. eexists. split; [reflexivity|]. simpl.
  split; [|done]. rewrite length_app. simpl. lia.
Qed.

(** X15: when a stream operation of the authorization handler raises, what
    follows it in the handler is not done: a failed [send] leaves nothing on
    the stream, and in either case no disconnect request is made; the events
    up to the authorization are the ones handled, the error is logged and
    the call returns. *)
Theorem stream_error_is_logged (self : XmppClient) (u : User)
    (msg : string) (host prt tls : PyVal) (jid pass : string) (sj tj : JID)
    (pre rest : list Event) (stream : Stream) (fin : Ending)
    (queued : nat) (e : exn) (w : World) :
  configured self host prt tls jid pass → is_ascii msg = true →
  JID_new jid None = inr sj →
  JID_new (username u) (Some (jid_domain sj)) = inr tj →
  network (length (clients w)) sj
          {| password := pass; starttls := tls; tls_verify_peer := false;
             server := host; port := prt |}
  = {| connect_raises := None;
       events := pre ++ AuthorizedEvent stream :: rest;
       ending := fin;
       queued_behind := queued |} →
  forallb is_other pre = true →
  stream_error stream = Some e →
  ∃ w', send_xmpp_message self u msg w = Return w' tt
        ∧ wire w'
          = wire w ++ match send_raises stream with
                      | Some _ => []
                      | None => [Sent {| to_jid := tj; body := msg |}]
                      end
        ∧ log w'
          = log w ++ (LogInfo <$> pre ++ [AuthorizedEvent stream])
                  ++ [LogError "boo" e].
Proof.
  intros Hc Ha Hsj Htj Hnet Hpre Herr.
  rewrite (send_xmpp_message_configured _ _ _ _ _ _ _ _ _ Hc Ha).
  unfold try_except, deliver, bind, lift. rewrite Hsj. simpl.
  rewrite Htj. simpl.
  unfold Client_new, connect, run, bind, record_client, ret. simpl.
  rewrite Hnet. simpl.
  match goal with
  | |- context [loop ?hs _ fin queued ?w0] =>
      destruct (loop_others {| XmppHandler.target_jid := tj;
                               XmppHandler.message := msg |}
                  pre (AuthorizedEvent stream :: rest) fin queued w0 Hpre)
        as (w1 & -> & _ & _ & Hw1 & Hl1)
  end.
  simpl in Hw1, Hl1.
  cbn [loop dispatch]. unfold handle_event, handle_all, handle_authorized,
    stream_send, stream_disconnect, bind, logging, emit, ret, raise.
  unfold stream_error in Herr.
  destruct (send_raises stream) as [e1|]; simpl.
  - injection Herr as ->. eexists. split; [reflexivity|]. simpl.
    split; [by rewrite Hw1, app_nil_r|].
    rewrite Hl1, fmap_app. simpl. by rewrite <- !app_assoc.
  - rewrite Herr. simpl. eexists. split; [reflexivity|]. simpl.
    split; [by rewrite Hw1|].
    rewrite Hl1, fmap_app. simpl. by rewrite <- !app_assoc.
Qed.



End Sessions.

(** ** The further properties on the example data *)

Lemma example_client_configured (E : Environment) :
  @configured E example_client (PyUnicode "xmpp.example.org")
    (PyInt 5222) (PyBool true) "rb@example.org" "secret".
Proof.
  split; try reflexivity.
  - exists (PyUnicode "rb@example.org"). by split.
  - exists (PyUnicode "secret"). by split.
Defined.

Lemma missing_setting_raises_before_any_session_witness :
  first_missing (Extension.settings (extension broken_client))
  = Some "xmpp_host"
  ∧ ∃ w', @send_xmpp_message example_env broken_client bob "hello" world0
          = Raise w' (KeyError "xmpp_host")
          ∧ calls w' = [(bob, "hello")]
          ∧ clients w' = [] ∧ wire w' = [] ∧ log w' = [].
Proof.
  assert (first_missing (Extension.settings (extension broken_client))
          = Some "xmpp_host") as Hk.
  { vm_compute. reflexivity. }
  split; [exact Hk|].
  exact (@missing_setting_raises_before_any_session example_env broken_client
           bob "hello" "xmpp_host" world0 Hk).
Defined.

Lemma missing_setting_stops_at_first_recipient_witness :
  recipients carol example_request = [bob; alice]
  ∧ ∃ w', @entry example_env Publish broken_client carol example_request
            world0 = Raise w' (KeyError "xmpp_host")
          ∧ new_calls world0 w'
            = [(bob, @entry_text example_env Publish carol example_request)].
Proof.
  assert (recipients carol example_request = [bob; alice]) as Hr.
  { vm_compute. reflexivity. }
  split; [exact Hr|].
  apply (@missing_setting_stops_at_first_recipient example_env Publish
           broken_client carol example_request "xmpp_host" bob [alice]
           world0).
  - vm_compute. reflexivity.
  - discriminate.
  - reflexivity.
  - exact Hr.
Defined.

Lemma nobody_to_notify_returns_witness :
  recipients alice solo_request = []
  ∧ @entry example_env Publish broken_client alice solo_request world0
    = Return world0 tt.
Proof.
  assert (recipients alice solo_request = []) as Hr.
  { vm_compute. reflexivity. }
  split; [exact Hr|].
  apply (@nobody_to_notify_returns example_env Publish broken_client alice
           solo_request world0); [discriminate | exact Hr].
Defined.

Lemma undecodable_input_raises_before_any_session_witness :
  is_ascii (String "201"%char "t") = false
  ∧ @send_xmpp_message example_env example_client bob (String "201"%char "t")
      world0
    = Raise (final (record_call bob (String "201"%char "t") world0))
        UnicodeEncodeError.
Proof.
  split; [reflexivity|].
  apply (proj2 (proj2 (@undecodable_input_raises_before_any_session
                         example_env example_client bob
                         (String "201"%char "t") (PyUnicode "xmpp.example.org")
                         (PyInt 5222) (PyBool true)
                         (PyUnicode "rb@example.org") (PyUnicode "secret")
                         world0 eq_refl eq_refl eq_refl eq_refl eq_refl))
           "rb@example.org" "secret"); reflexivity.
Defined.

Lemma reply_on_public_request_raises_witness :
  public example_request = true
  ∧ @send_reply_published example_env example_client alice
      {| Reply.base_reply_to :=
           {| Review.review_request := example_request |} |} world0
    = Raise world0 (TypeError not_all_converted).
Proof.
  split; [reflexivity|].
  apply (@reply_on_public_request_raises example_env). reflexivity.
Defined.

Lemma public_request_is_fanned_out_witness :
  public example_request = true
  ∧ @send_review_request_reopened example_env example_client alice
      example_request world0
    = @send_xmpp_message example_env example_client bob
        (notification_text "reopened review request" alice example_request
           "https://reviews.example.org") world0.
Proof.
  split; [reflexivity|].
  rewrite (proj1 (proj2 (@public_request_is_fanned_out example_env
                           example_client alice example_request world0
                           eq_refl))).
  vm_compute. reflexivity.
Defined.

Lemma nothing_sent_without_authorization_witness :
  (∀ n jid st,
     has_authorized (events (@network refusing_env n jid st)) = false)
  ∧ wire (final (@entry refusing_env Publish example_client carol
                   example_request world0)) = [].
Proof.
  assert (∀ n jid st,
            has_authorized (events (@network refusing_env n jid st)) = false)
    as Hnet by reflexivity.
  split; [exact Hnet|].
  exact (@nothing_sent_without_authorization refusing_env Publish
           example_client carol example_request world0 Hnet).
Defined.

Lemma messages_go_to_recipients_witness :
  Sent {| to_jid := {| jid_local := Some "bob"; jid_domain := "example.org";
                       jid_resource := None |};
          body := @entry_text open_env Publish alice example_request |}
    ∈ new_wire world0
        (final (@entry open_env Publish example_client alice example_request
                  world0))
  ∧ ∃ u, u ∈ recipients alice example_request
         ∧ @address_of open_env "rb@example.org" u
             {| jid_local := Some "bob"; jid_domain := "example.org";
                jid_resource := None |}.
Proof.
  assert (Sent {| to_jid := {| jid_local := Some "bob";
                               jid_domain := "example.org";
                               jid_resource := None |};
                  body := @entry_text open_env Publish alice example_request |}
            ∈ new_wire world0
                (final (@entry open_env Publish example_client alice
                          example_request world0))) as Hin.
  { vm_compute. apply list_elem_of_here. }
  split; [exact Hin|].
  exact (proj2 (@messages_go_to_recipients open_env Publish example_client
                  alice example_request _ _ _ _ _ world0 _
                  (example_client_configured open_env) Hin)).
Defined.

Lemma sessions_use_the_configuration_witness :
  bob_session
    ∈ new_clients world0
        (final (@entry open_env Publish example_client alice example_request
                  world0))
  ∧ @session_for open_env (PyUnicode "xmpp.example.org") (PyInt 5222)
      (PyBool true) "rb@example.org" "secret"
      (@entry_text open_env Publish alice example_request)
      (recipients alice example_request) bob_session.
Proof.
  assert (bob_session
            ∈ new_clients world0
                (final (@entry open_env Publish example_client alice
                          example_request world0))) as Hin.
  { vm_compute. apply list_elem_of_here. }
  split; [exact Hin|].
  exact (@sessions_use_the_configuration open_env Publish example_client
           alice example_request _ _ _ _ _ world0 _
           (example_client_configured open_env) Hin).
Defined.

Lemma malformed_address_is_logged_witness :
  @JID_new example_env (username nameless) (Some "example.org")
  = inl (JIDError "empty local part")
  ∧ ∃ w', @send_xmpp_message example_env example_client nameless "hello"
            world0 = Return w' tt
          ∧ clients w' = [] ∧ wire w' = []
          ∧ log w' = [LogError "boo" (JIDError "empty local part")].
Proof.
  split; [reflexivity|].
  apply (@malformed_address_is_logged example_env example_client nameless
           "hello" _ _ _ _ _ (JIDError "empty local part") world0
           (example_client_configured example_env)); [reflexivity|].
  right. eexists. split; reflexivity.
Defined.

Lemma refused_connection_is_logged_witness :
  ∃ w', @send_xmpp_message refusing_env example_client bob "hello" world0
        = Return w' tt
        ∧ length (clients w') = 1%nat
        ∧ wire w' = []
        ∧ log w' = [LogError "boo" (TransportError "connection refused")].
Proof.
  apply (@refused_connection_is_logged refusing_env example_client bob
           "hello" _ _ _ _ _
           {| jid_local := Some "rb"; jid_domain := "example.org";
              jid_resource := None |}
           {| jid_local := Some "bob"; jid_domain := "example.org";
              jid_resource := None |}
           (TransportError "connection refused") world0
           (example_client_configured refusing_env)); reflexivity.
Defined.

Lemma stream_error_is_logged_witness :
  ∃ w', @send_xmpp_message broken_pipe_env example_client bob "hello" world0
        = Return w' tt
        ∧ wire w' = []
        ∧ log w'
          = [LogInfo (OtherEvent "ConnectedEvent");
             LogInfo (AuthorizedEvent broken_stream);
             LogError "boo" (TransportError "broken pipe")].
Proof.
  apply (@stream_error_is_logged broken_pipe_env example_client bob "hello"
           _ _ _ _ _
           {| jid_local := Some "rb"; jid_domain := "example.org";
              jid_resource := None |}
           {| jid_local := Some "bob"; jid_domain := "example.org";
              jid_resource := None |}
           [OtherEvent "ConnectedEvent"] [DisconnectedEvent] broken_stream
           LoopBlocks 0%nat (TransportError "broken pipe") world0
           (example_client_configured broken_pipe_env)); reflexivity.
Defined.


(** ** What reaches the caller *)

Lemma raises_only_bind (P : exn -> Prop) {A B} (m : M A) (k : A -> M B) :
  raises_only P m → (∀ a, raises_only P (k a)) → raises_only P (bind m k).
Proof.
  intros Hm Hk w w' e. unfold bind. specialize (Hm w).
  destruct (m w) as [w1 a|w1 e1|w1]; [apply Hk| |done].
  intros [= <- <-]. by eapply Hm.
Qed.

Lemma raises_only_try_except (P : exn -> Prop) {A} (m : M A)
    (h : exn -> M A) :
  (∀ e, raises_only P (h e)) → raises_only P (try_except m h).
Proof.
  intros Hh w w' e. unfold try_except.
  destruct (m w) as [w1 a|w1 e1|w1]; [done|apply Hh|done].
Qed.

Lemma raises_only_for_each (P : exn -> Prop) {A} (l : list A)
    (body : A -> M unit) :
  (∀ x, raises_only P (body x)) → raises_only P (for_each l body).
Proof.
  intros Hb. induction l as [|x l IH]; simpl; [by intros w w' e|].
  by apply raises_only_bind.
Qed.

Lemma raises_only_getitem (d : gmap string PyVal) (key : string) :
  key ∈ connection_keys → raises_only raised_outside_try (getitem d key).
Proof.
  intros Hk w w' e. unfold getitem. destruct (d !! key); [done|].
  intros [= _ <-]. left. by exists key.
Qed.

Lemma raises_only_decode `{Environment} (v : PyVal) :
  raises_only raised_outside_try (lift (decode_utf8 v)).
Proof.
  intros w w' e. destruct v as [s|s| | |]; simpl.
  - destruct (is_ascii s); [done|]. intros [= _ <-]. right. by left.
  - destruct (utf8_decode s); [done|]. intros [= _ <-]. do 2 right. by left.
  - intros [= _ <-]. do 3 right. by left.
  - intros [= _ <-]. do 3 right. by left.
  - intros [= _ <-]. do 3 right. by left.
Qed.

Lemma raises_only_send_xmpp_message `{Environment} (self : XmppClient)
    (u : User) (msg : string) :
  raises_only raised_outside_try (send_xmpp_message self u msg).
Proof.
  unfold send_xmpp_message.
  apply raises_only_bind; [by intros w w' e|intros _].
  do 5 (apply raises_only_bind;
        [apply raises_only_getitem; unfold connection_keys;
         repeat first [apply list_elem_of_here | apply list_elem_of_further]
        |intros ?]).
  do 3 (apply raises_only_bind; [apply raises_only_decode | intros ?]).
  apply raises_only_try_except. by intros e0 w w' e.
Qed.

(** X17: no exception of the address parser or of a session ever reaches
    the caller of an entry point.  What an entry point can raise is the
    [KeyError] of a missing connection parameter, a decoding error of the
    lines that precede the [try] block, or the [TypeError] of the reply
    template. *)
Theorem only_preamble_errors_reach_the_caller `{Environment}
    (ep : EntryPoint) (self : XmppClient) (actor : User) (r : ReviewRequest)
    (w w' : World) (e : exn) :
  entry ep self actor r w = Raise w' e → raised_outside_try e.
Proof.
  destruct (gate ep r) eqn:Hg.
  - destruct (decide (ep = ReplyPosted)) as [->|Hep].
    + rewrite entry_reply_raises by done. intros [= _ <-]. by do 4 right.
    + rewrite entry_dispatches by done.
      apply raises_only_for_each. intros u.
      apply raises_only_send_xmpp_message.
  - by rewrite entry_suppressed by done.
Qed.

Lemma only_preamble_errors_reach_the_caller_witness :
  @entry example_env Publish broken_client alice example_request world0
  = Raise (final (@entry example_env Publish broken_client alice
                    example_request world0))
          (KeyError "xmpp_host")
  ∧ raised_outside_try (KeyError "xmpp_host").
Proof.
  assert (@entry example_env Publish broken_client alice example_request
            world0
          = Raise (final (@entry example_env Publish broken_client alice
                            example_request world0))
                  (KeyError "xmpp_host")) as Hraise.
  { vm_compute. reflexivity. }
  split; [exact Hraise|].
  exact (@only_preamble_errors_reach_the_caller example_env Publish
           broken_client alice example_request world0 _ _ Hraise).
Defined.
